(** * Pocket POD editor: the MIDI protocol codec of [PocketPodEditor.jsx]

    A shallow embedding of the protocol layer of the editor: the constant
    tables, the nibble decoder, the patch-dump parser and the Control
    Change block of the MIDI message handler, followed by the properties
    of these functions.

    JavaScript data is modelled as follows.
    - An array of integers is a [list Z]; reading past its end gives
      [undefined], which is [JUndefined] of [jsval].
    - The bit operators work on 32-bit signed integers: [toInt32] is the
      wrap-around, [js_shl], [js_sar], [js_or] and [js_and] are [<<], [>>],
      [|] and [&].
    - A string is the list of its UTF-16 code units ([jsstring]).
    - An object used as a dictionary with string keys is a [gmap string];
      an object that the code walks with [Object.entries] is the list of its
      entries in iteration order. *)

From Stdlib Require Import ZArith Lia.
From stdpp Require Import gmap strings list fin_maps sorting.

Local Open Scope Z_scope.

(** ** JavaScript values and operators *)

Module JS.

(** The values a variable of the protocol layer can hold. *)
Inductive jsval : Type :=
| JNull
| JUndefined
| JNum (n : Z).

#[global] Instance jsval_eq_dec : EqDecision jsval.
Proof. solve_decision. Defined.

(** [ToInt32] on an integer-valued number. *)
Definition toInt32 (z : Z) : Z := (z + 2 ^ 31) mod 2 ^ 32 - 2 ^ 31.

(** [a << k] *)
Definition js_shl (a k : Z) : Z := toInt32 (Z.shiftl (toInt32 a) (k mod 32)).

(** [a >> k] *)
Definition js_sar (a k : Z) : Z := Z.shiftr (toInt32 a) (k mod 32).

(** [a | b] *)
Definition js_or (a b : Z) : Z := Z.lor (toInt32 a) (toInt32 b).

(** [a & b] *)
Definition js_and (a b : Z) : Z := Z.land (toInt32 a) (toInt32 b).

(** [arr[i]] on an array of integers. *)
Definition js_get (arr : list Z) (i : nat) : jsval :=
  match arr !! i with
  | Some n => JNum n
  | None => JUndefined
  end.

(** [v === n] for a number literal [n]. *)
Definition js_strict_eq_num (v : jsval) (n : Z) : bool :=
  match v with
  | JNum m => bool_decide (m = n)
  | _ => false
  end.

(** [v >= n] for a number literal [n]: [undefined] converts to NaN and
    compares false, [null] converts to 0. *)
Definition js_ge_num (v : jsval) (n : Z) : bool :=
  match v with
  | JNum m => bool_decide (n <= m)
  | JNull => bool_decide (n <= 0)
  | JUndefined => false
  end.

(** [v & n] for a number literal [n]: [undefined] and [null] convert
    to 0. *)
Definition js_and_val (v : jsval) (n : Z) : Z :=
  match v with
  | JNum m => js_and m n
  | _ => js_and 0 n
  end.

(** [arr.slice(s, e)] for non-negative literal bounds. *)
Definition slice {A} (s e : nat) (arr : list A) : list A :=
  take (e - s) (drop s arr).

(** A string, as the sequence of its UTF-16 code units. *)
Definition jsstring : Type := list Z.

(** [String.fromCharCode(b)]: one code unit, [ToUint16 b]. *)
Definition fromCharCode (b : Z) : jsstring := [b mod 2 ^ 16].

(** [parts.join("")] *)
Definition join (parts : list jsstring) : jsstring := concat parts.

(** White space and line terminators, the code units [trim] removes. *)
Definition isWhiteSpace (c : Z) : bool :=
  bool_decide (c ∈ [9; 10; 11; 12; 13; 32; 160; 5760; 8232; 8233; 8239;
                    8287; 12288; 65279])
  || (Z.leb 8192 c && Z.leb c 8202).

Fixpoint trimStart (s : jsstring) : jsstring :=
  match s with
  | c :: s' => if isWhiteSpace c then trimStart s' else s
  | [] => []
  end.

Definition trimEnd (s : jsstring) : jsstring := rev (trimStart (rev s)).

(** [s.trim()] removes white space from both ends. *)
Definition trim (s : jsstring) : jsstring := trimEnd (trimStart s).

(** The code units of a string literal of 8-bit characters. *)
Fixpoint of_string (s : string) : jsstring :=
  match s with
  | EmptyString => []
  | String a s' => Z.of_N (Ascii.N_of_ascii a) :: of_string s'
  end.

End JS.
Import JS.

(** ** Protocol constants *)

Definition LINE6_MANUFACTURER_ID : list Z := [0x00; 0x01; 0x0c].
Definition POCKET_POD_DEVICE_ID : Z := 0x01.
Definition MIDI_CHANNEL : Z := 0.
Definition SYSEX_START : Z := 0xf0.
Definition SYSEX_END : Z := 0xf7.
Definition OPCODE_PATCH_DUMP_REQUEST : Z := 0x00.
Definition OPCODE_PATCH_DUMP : Z := 0x01.

(** ** Nibble decode utility *)

(** The loop of [decodeNibbles] reads [data[i]] and [data[i + 1]] for
    [i = 0, 2, 4, ...] while [i < data.length - 1], that is, while two
    elements are left. *)
Fixpoint decodeNibbles (data : list Z) : list Z :=
  match data with
  | hi :: lo :: rest => js_or (js_shl hi 4) lo :: decodeNibbles rest
  | _ => []
  end.

(** The same loop with its index [i] and the array [bytes] it pushes to,
    statement by statement; [fuel] bounds the number of iterations, and
    [length data] iterations are always enough ([decodeNibbles_for_eq]). *)
Fixpoint decodeNibbles_for (fuel : nat) (data : list Z) (i : nat)
    (bytes : list Z) : list Z :=
  match fuel with
  | O => bytes
  | S fuel' =>
      if Z.of_nat i <? Z.of_nat (length data) - 1 then
        match data !! i, data !! (i + 1)%nat with
        | Some hi, Some lo =>
            decodeNibbles_for fuel' data (i + 2)
                              (bytes ++ [js_or (js_shl hi 4) lo])
        | _, _ => bytes
        end
      else bytes
  end.

Definition decodePatchName (nibbles : list Z) : jsstring :=
  let bytes := decodeNibbles nibbles in
  trim (join (map fromCharCode bytes)).

(** ** Constant tables *)

(** A descriptor of [MIDI_CC_MAP]: controller number, display name and
    value range. *)
Module CCDef.
Record t : Type := mk { cc : Z; name : string; min : Z; max : Z }.
End CCDef.

#[global] Instance CCDef_eq_dec : EqDecision CCDef.t.
Proof. solve_decision. Defined.

(** MIDI CC definitions for Pocket POD parameters, in the order of
    [Object.entries]: all keys are non-numeric strings, hence insertion
    order. *)
Definition MIDI_CC_MAP : list (string * CCDef.t) :=
  [ (* Preamp *)
    ("ampModel", CCDef.mk 12 "Amp Model" 0 31);
    ("drive", CCDef.mk 13 "Drive" 0 127);
    ("bass", CCDef.mk 14 "Bass" 0 127);
    ("mid", CCDef.mk 15 "Mid" 0 127);
    ("treble", CCDef.mk 16 "Treble" 0 127);
    ("chanVol", CCDef.mk 17 "Chan Vol" 0 127);
    ("drive2", CCDef.mk 20 "Drive 2" 0 127);
    ("presence", CCDef.mk 21 "Presence" 0 127);
    (* Reverb *)
    ("reverb_level", CCDef.mk 18 "Reverb Level" 0 127);
    ("reverb_type", CCDef.mk 37 "Reverb Type" 0 1);
    ("reverb_decay", CCDef.mk 38 "Reverb Decay" 0 127);
    ("reverb_tone", CCDef.mk 39 "Reverb Tone" 0 127);
    ("reverb_diffusion", CCDef.mk 40 "Reverb Diffusion" 0 127);
    ("reverb_density", CCDef.mk 41 "Reverb Density" 0 127);
    (* FX config *)
    ("effect", CCDef.mk 19 "Effect Type" 0 15);
    ("effect_tweak", CCDef.mk 1 "Effect Tweak" 0 127);
    ("effect_speed", CCDef.mk 51 "Effect Speed" 0 127);
    ("effect_depth", CCDef.mk 52 "Effect Depth" 0 127);
    ("effect_feedback", CCDef.mk 53 "Effect Feedback" 0 127);
    ("effect_predelay", CCDef.mk 54 "Effect Pre-Delay" 0 127);
    (* Noise gate *)
    ("noise_gate", CCDef.mk 23 "Noise Gate Thresh" 0 127);
    ("noise_gate_decay", CCDef.mk 24 "Noise Gate Decay" 0 127);
    (* Delay *)
    ("delay_time", CCDef.mk 30 "Delay Time" 0 127);
    ("delay_time_fine", CCDef.mk 62 "Delay Fine" 0 127);
    ("delay_feedback", CCDef.mk 32 "Delay Feedback" 0 127);
    ("delay_level", CCDef.mk 34 "Delay Level" 0 127);
    (* Cabinet *)
    ("cabModel", CCDef.mk 71 "Cab Model" 0 15);
    ("air", CCDef.mk 72 "Air" 0 127);
    (* Wah *)
    ("wah_position", CCDef.mk 4 "Wah Position" 0 127);
    ("wah_bottom", CCDef.mk 44 "Wah Bot Freq" 0 127);
    ("wah_top", CCDef.mk 45 "Wah Top Freq" 0 127);
    (* Volume pedal *)
    ("vol_level", CCDef.mk 7 "Volume Level" 0 127);
    ("vol_min", CCDef.mk 46 "Volume Min" 0 127);
    ("vol_position", CCDef.mk 47 "Volume Position" 0 127);
    (* Switches (toggle: CC sends 0 or 127) *)
    ("dist_enable", CCDef.mk 25 "Dist Enable" 0 1);
    ("drive_enable", CCDef.mk 26 "Drive Enable" 0 1);
    ("eq_enable", CCDef.mk 27 "EQ Enable" 0 1);
    ("delay_enable", CCDef.mk 28 "Delay Enable" 0 1);
    ("reverb_enable", CCDef.mk 36 "Reverb Enable" 0 1);
    ("noise_gate_enable", CCDef.mk 22 "Noise Gate Enable" 0 1);
    ("mod_fx_enable", CCDef.mk 50 "Mod FX Enable" 0 1);
    ("bright_switch", CCDef.mk 73 "Bright Switch" 0 1) ]%string.

(** Patch data byte offset -> params state key mapping, in the order of
    [Object.entries]: integer keys in ascending order, each offset already
    converted by [Number(offset)]. *)
Definition PATCH_PARAM_MAP : list (nat * string) :=
  [ (* Switches (positions 0-7) *)
    (0, "dist_enable"); (1, "drive_enable"); (2, "eq_enable");
    (3, "delay_enable"); (4, "mod_fx_enable"); (5, "reverb_enable");
    (6, "noise_gate_enable"); (7, "bright_switch");
    (* Preamp (positions 8-15) *)
    (8, "ampModel"); (9, "drive"); (10, "drive2"); (11, "bass");
    (12, "mid"); (13, "treble"); (14, "presence"); (15, "chanVol");
    (* Noise gate (positions 16-17) *)
    (16, "noise_gate"); (17, "noise_gate_decay");
    (* Wah (positions 18-20) *)
    (18, "wah_position"); (19, "wah_bottom"); (20, "wah_top");
    (* Volume pedal (positions 22-24) *)
    (22, "vol_level"); (23, "vol_min"); (24, "vol_position");
    (* Delay (positions 26, 27, 34, 36) *)
    (26, "delay_time"); (27, "delay_time_fine"); (34, "delay_feedback");
    (36, "delay_level");
    (* Reverb (positions 38-43) *)
    (38, "reverb_type"); (39, "reverb_decay"); (40, "reverb_tone");
    (41, "reverb_diffusion"); (42, "reverb_density"); (43, "reverb_level");
    (* Cabinet (positions 44-45) *)
    (44, "cabModel"); (45, "air");
    (* FX config (positions 46-47) *)
    (46, "effect"); (47, "effect_tweak");
    (* Shared effect params (positions 48-54) *)
    (48, "effect_speed"); (50, "effect_depth"); (52, "effect_feedback");
    (53, "effect_predelay") ]%nat%string.

(** ** Patch dump parser *)

(** The result of [parsePatchDump]: [{ name, params, presetNumber,
    isEditBuffer }]. *)
Record PatchRecord : Type := mkPatchRecord {
  name : jsstring;
  params : gmap string jsval;
  presetNumber : jsval;
  isEditBuffer : bool
}.

(** The loop [for (const [offset, key] of Object.entries(PATCH_PARAM_MAP))
    params[key] = decoded[Number(offset)]], from the object [acc]. *)
Definition mapParams (decoded : list Z) (table : list (nat * string))
    (acc : gmap string jsval) : gmap string jsval :=
  foldl (fun (ps : gmap string jsval) (entry : nat * string) =>
           <[entry.2 := js_get decoded entry.1]> ps) acc table.

(** Parse a full SysEx patch dump; [None] is the [null] result. *)
Definition parsePatchDump (data : list Z) : option PatchRecord :=
  let isEditBuffer := js_strict_eq_num (js_get data 6) 0x01 in
  let presetNumber := if isEditBuffer then JNull else js_get data 7 in
  let nibbleStart := if isEditBuffer then 8%nat else 9%nat in
  let nibblizedPayload := slice nibbleStart (nibbleStart + 142) data in
  if (length nibblizedPayload <? 142)%nat then None
  else
    let decoded := decodeNibbles nibblizedPayload in
    let nameBytes := slice 55 71 decoded in
    let name := trim (join (map fromCharCode nameBytes)) in
    let params := mapParams decoded PATCH_PARAM_MAP ∅ in
    Some (mkPatchRecord name params presetNumber isEditBuffer).

(** ** The test helper that builds a patch dump *)

(** [buildPatchDump({ isEditBuffer, presetNumber, paramBytes, nameChars })]
    of the protocol test suite; [paramBytes = None] is the default
    [null]. *)
Definition buildPatchDump (isEditBuffer : bool) (presetNumber : Z)
    (paramBytes : option (list Z)) (nameChars : jsstring) : list Z :=
  let header :=
    [SYSEX_START] ++ LINE6_MANUFACTURER_ID ++ [POCKET_POD_DEVICE_ID; 0x01] in
  let metaBytes :=
    if isEditBuffer then [0x01; 0x00] else [0x00; presetNumber; 0x00] in
  let decoded := default (replicate 55 0) paramBytes in
  let nameBytes := nameChars ++ replicate (16 - length nameChars) 0x20 in
  let full71 := decoded ++ slice 0 16 nameBytes in
  let nibblized :=
    flat_map (fun byte => [js_and (js_sar byte 4) 0x0F; js_and byte 0x0F])
             full71 in
  header ++ metaBytes ++ nibblized ++ [SYSEX_END].

(** ** The handler of incoming MIDI messages, on the parameter state *)

(** The loop over [Object.entries(MIDI_CC_MAP)] of the Control Change
    block: the first descriptor whose [cc] is the controller number gives
    the key and the adjusted value, then the loop breaks. *)
Fixpoint scanCCMap (entries : list (string * CCDef.t)) (cc : jsval)
    (val : jsval) : option (string * jsval) :=
  match entries with
  | [] => None
  | (key, def) :: rest =>
      if bool_decide (JNum (CCDef.cc def) = cc) then
        (* For toggle params, interpret >= 64 as on (1), < 64 as off (0) *)
        let adjustedVal :=
          if bool_decide (CCDef.max def = 1)
          then (if js_ge_num val 64 then JNum 1 else JNum 0)
          else val in
        Some (key, adjustedVal)
      else scanCCMap rest cc val
  end.

(** The effect of [handleMidiMessage] on the [params] state, given the
    array [data] of the event: the updaters passed to [setParams] are
    applied to the previous state in the order of the calls. The patch-dump
    block merges the parameters of an edit-buffer dump, the Control Change
    block stores one adjusted value; the other state of the component
    (log, device info, preset list, preset name) is left out. *)
Definition handleMidiMessage (data : list Z) (prev : gmap string jsval)
    : gmap string jsval :=
  let afterSysEx :=
    if js_strict_eq_num (js_get data 0) SYSEX_START
       && js_strict_eq_num (js_get data 1) 0x00
       && js_strict_eq_num (js_get data 2) 0x01
       && js_strict_eq_num (js_get data 3) 0x0c
       && js_strict_eq_num (js_get data 4) POCKET_POD_DEVICE_ID
       && js_strict_eq_num (js_get data 5) OPCODE_PATCH_DUMP
    then
      match parsePatchDump data with
      | Some parsed =>
          if isEditBuffer parsed then params parsed ∪ prev else prev
      | None => prev
      end
    else prev in
  (* Handle CC messages (status 0xB0 for channel 1) *)
  if bool_decide (js_and_val (js_get data 0) 0xf0 = 0xb0) then
    match scanCCMap MIDI_CC_MAP (js_get data 1) (js_get data 2) with
    | Some (key, adjustedVal) => <[key := adjustedVal]> afterSysEx
    | None => afterSysEx
    end
  else afterSysEx.

(** ** The effect category resolver *)

(** [EFFECT_CATEGORIES], the per-category controller numbers and
    [getEffectCC] are imported and exercised by the protocol test suite;
    [PocketPodEditor.jsx] does not define them, so they follow section 4.5
    of the specification. *)
Section EffectCategoryResolver.

(** Modelled from the spec: the eight effect categories of section 3,
    which are missing from the sources. *)
Inductive EffectCategory : Type :=
| chorus | flanger | rotary | tremolo | compressor | swell | bypass
| delay_only.

(** Modelled from the spec: the fixed lookup of section 4.5 from the 16
    effect-type indices to categories, missing from the sources; an index
    outside 0..15 has no category (section 7). *)
Definition EFFECT_CATEGORIES (effectTypeIndex : Z) : option EffectCategory :=
  match effectTypeIndex with
  | 0 | 4 | 8 | 12 => Some chorus
  | 1 | 3 | 13 | 15 => Some flanger
  | 2 => Some rotary
  | 5 | 9 => Some tremolo
  | 7 | 11 => Some compressor
  | 14 => Some swell
  | 10 => Some bypass
  | 6 => Some delay_only
  | _ => None
  end.

(** The controller numbers of the flanger category: the table of
    section 4.5 has no flanger row, so they stay a parameter. *)
Variable flangerCCs : list (string * Z).

(** Modelled from the spec: the table of section 4.5 of the controller
    number of each logical sub-parameter per category, missing from the
    sources. *)
Definition EFFECT_CATEGORY_CCS (category : EffectCategory)
    : list (string * Z) :=
  match category with
  | chorus => [("effect_speed", 51); ("effect_depth", 52);
               ("effect_feedback", 53); ("effect_predelay", 54)]
  | flanger => flangerCCs
  | rotary => [("effect_speed", 55); ("effect_depth", 56)]
  | tremolo => [("effect_speed", 58); ("effect_depth", 59)]
  | compressor => [("effect_speed", 42)]
  | swell => [("effect_speed", 49)]
  | bypass => []
  | delay_only => []
  end%string.

(** The first entry of an association list under a key. *)
Fixpoint assoc (key : string) (entries : list (string * Z)) : option Z :=
  match entries with
  | [] => None
  | (k, v) :: rest => if bool_decide (k = key) then Some v else assoc key rest
  end.

(** Modelled from the spec: [getEffectCC(logicalParam, effectTypeIndex)]
    of section 4.5, missing from the sources: resolve the category from the
    index and look the logical parameter up in the table of that category;
    [None] is [null]. *)
Definition getEffectCC (logicalParam : string) (effectTypeIndex : Z)
    : option Z :=
  match EFFECT_CATEGORIES effectTypeIndex with
  | Some category => assoc logicalParam (EFFECT_CATEGORY_CCS category)
  | None => None
  end.

End EffectCategoryResolver.

(** ** Notions used in the statements *)

(** No white space at the front of a string. *)
Definition cleanHead (s : jsstring) : Prop :=
  forall c, head s = Some c -> isWhiteSpace c = false.

(** No white space at the end of a string. *)
Definition cleanLast (s : jsstring) : Prop :=
  forall c, last s = Some c -> isWhiteSpace c = false.

Definition allWhite (s : jsstring) : Prop :=
  Forall (fun c => isWhiteSpace c = true) s.

(** The name decoder as the specification words it: white space is cut at
    the end of the name only. *)
Definition decodePatchName_trailing_only (nibbles : list Z) : jsstring :=
  trimEnd (join (map fromCharCode (decodeNibbles nibbles))).

(** The start index of the nibblized payload that [parsePatchDump]
    chooses from [data[6]]. *)
Definition nibbleStart (data : list Z) : nat :=
  if bool_decide (data !! 6%nat = Some 0x01) then 8%nat else 9%nat.

(** The controller number of an entry of [MIDI_CC_MAP]. *)
Definition ccOf (entry : string * CCDef.t) : Z := CCDef.cc entry.2.

(** The value the Control Change block stores for a descriptor. *)
Definition adjustedVal (def : CCDef.t) (val : Z) : Z :=
  if bool_decide (CCDef.max def = 1)
  then (if bool_decide (64 <= val) then 1 else 0)
  else val.

(** ** Further constants and tables *)

Definition IDENTITY_REQUEST : list Z := [0xf0; 0x7e; 0x7f; 0x06; 0x01; 0xf7].

(** Request current edit buffer: opcode [0x00, 0x01] *)
Definition REQUEST_EDIT_BUFFER : list Z :=
  [SYSEX_START] ++ LINE6_MANUFACTURER_ID
  ++ [POCKET_POD_DEVICE_ID; OPCODE_PATCH_DUMP_REQUEST; 0x01; SYSEX_END].

(** Request all 124 presets: opcode [0x00, 0x02] *)
Definition REQUEST_ALL_PRESETS : list Z :=
  [SYSEX_START] ++ LINE6_MANUFACTURER_ID
  ++ [POCKET_POD_DEVICE_ID; OPCODE_PATCH_DUMP_REQUEST; 0x02; SYSEX_END].

(** Amp model names (32 models, indexed 0-31 matching CC 12 values) *)
Definition AMP_MODELS : list string :=
  [ "Tube Preamp"; "Line 6 Clean"; "Line 6 Crunch"; "Line 6 Drive";
    "Line 6 Layer"; "Small Tweed"; "Tweed Blues"; "Black Panel";
    "Modern Class A"; "Brit Class A"; "Brit Blues"; "Brit Classic";
    "Brit Hi Gain"; "Treadplate"; "Modern Hi Gain"; "Fuzz Box";
    "Jazz Clean"; "Boutique #1"; "Boutique #2"; "Brit Class A #2";
    "Brit Class A #3"; "Small Tweed #2"; "Black Panel #2"; "Boutique #3";
    "California Crunch #1"; "California Crunch #2"; "Treadplate #2";
    "Modern Hi Gain #2"; "Line 6 Twang"; "Line 6 Crunch #2"; "Line 6 Blues";
    "Line 6 INSANE" ]%string.

(** Cabinet model names (16 models, indexed 0-15 matching CC 71 values) *)
Definition CAB_MODELS : list string :=
  [ "1x8 '60 Fender Tweed Champ"; "1x12 '52 Fender Tweed Deluxe";
    "1x12 '60 Vox AC15"; "1x12 '64 Fender Blackface Deluxe";
    "1x12 '98 Line 6 Flextone"; "2x12 '65 Fender Blackface Twin";
    "2x12 '67 VOX AC30"; "2x12 '95 Matchless Chieftain";
    "2x12 '98 Pod Custom 2x12"; "4x10 '59 Fender Bassman";
    "4x10 '98 Pod Custom 4x10"; "4x12 '96 Marshall w/ V30s";
    "4x12 '78 Marshall w/ 70s";
    "4x12 '97 Marshall Basketweave w/ Greenbacks";
    "4x12 '98 Pod Custom 4x12"; "No Cabinet" ]%string.

(** Effect type names (16 types, indexed 0-15 matching CC 19 values) *)
Definition EFFECT_TYPES : list string :=
  [ "Chorus 2"; "Flanger 1"; "Rotary"; "Flanger 2"; "Delay/Chorus 1";
    "Delay/Tremolo"; "Delay"; "Delay/Comp"; "Chorus 1"; "Tremolo"; "Bypass";
    "Compressor"; "Delay/Chorus 2"; "Delay/Flanger 1"; "Delay/Swell";
    "Delay/Flanger 2" ]%string.

(** The entries of [DEFAULT_PARAMS], in the order they are written. *)
Definition DEFAULT_PARAMS_entries : list (string * Z) :=
  [ ("ampModel", 0); ("drive", 64); ("drive2", 0); ("bass", 64); ("mid", 64);
    ("treble", 64); ("chanVol", 100); ("presence", 64); ("reverb_level", 40);
    ("reverb_type", 0); ("reverb_decay", 64); ("reverb_tone", 64);
    ("reverb_diffusion", 64); ("reverb_density", 64); ("effect", 0);
    ("effect_tweak", 64); ("effect_speed", 64); ("effect_depth", 64);
    ("effect_feedback", 0); ("effect_predelay", 0); ("noise_gate", 0);
    ("noise_gate_decay", 64); ("delay_time", 40); ("delay_time_fine", 0);
    ("delay_feedback", 30); ("delay_level", 50); ("cabModel", 0); ("air", 0);
    ("wah_position", 0); ("wah_bottom", 0); ("wah_top", 127);
    ("vol_level", 100); ("vol_min", 0); ("vol_position", 127);
    ("dist_enable", 0); ("drive_enable", 0); ("eq_enable", 0);
    ("delay_enable", 0); ("reverb_enable", 0); ("noise_gate_enable", 0);
    ("mod_fx_enable", 0); ("bright_switch", 0) ]%string.

(** The object [DEFAULT_PARAMS], the initial [params] state. *)
Definition DEFAULT_PARAMS : gmap string jsval :=
  list_to_map (prod_map id JNum <$> DEFAULT_PARAMS_entries).

(** [obj[key]] for an object given by the list of its own entries; [None]
    is [undefined]. The keys are parameter names: a name that every object
    inherits (such as [toString]) is not one of them. *)
Fixpoint objGet {A} (key : string) (entries : list (string * A)) : option A :=
  match entries with
  | [] => None
  | (k, v) :: rest => if bool_decide (k = key) then Some v else objGet key rest
  end.

(** ** The keyboard handler of the knob *)

(** [handleKeyDown] of [ChromeKnob] for the key [e.key], the modifier
    [e.shiftKey] and the properties [value], [min], [max] of the knob:
    [Some v] when [onChange(v)] is called, [None] when it is not. *)
Definition handleKeyDown (key : string) (shiftKey : bool) (value min max : Z)
    : option Z :=
  let step := if shiftKey then 10 else 1 in
  let newValue :=
    if bool_decide (key = "ArrowUp"%string)
       || bool_decide (key = "ArrowRight"%string)
    then Some (Z.min max (value + step))
    else if bool_decide (key = "ArrowDown"%string)
            || bool_decide (key = "ArrowLeft"%string)
    then Some (Z.max min (value - step))
    else if bool_decide (key = "Home"%string) then Some min
    else if bool_decide (key = "End"%string) then Some max
    else None in
  match newValue with
  | Some v => if bool_decide (v <> value) then Some v else None
  | None => None
  end.

(** ** The bounded lists of the component *)

(** [arr.slice(-n)]: the last [n] elements. *)
Definition sliceLast {A} (n : nat) (arr : list A) : list A :=
  drop (length arr - n) arr.

(** The updater of [addLog], [prev => [...prev.slice(-200), entry]], for
    the entry that [addLog] builds (its time stamp and id come from the
    clock and the random generator). *)
Definition addLog_update {A} (entry : A) (prev : list A) : list A :=
  sliceLast 200 prev ++ [entry].

(** The updater of [addError], [prev => [...prev.slice(-4), { id, message }]]. *)
Definition addError_update {A} (entry : A) (prev : list A) : list A :=
  sliceLast 4 prev ++ [entry].

(** ** The state of the editor and its operations *)

(** An element of the [presets] array: [{ number, name, params }]. *)
Module Preset.
Record t : Type := mk {
  number : jsval;
  name : jsstring;
  params : gmap string jsval
}.
End Preset.

(** The part of the state of [PocketPodEditor] that the protocol code reads
    and writes. [outputRef] is [outputRef.current]: [None] when it is
    [null], otherwise the messages sent through the port so far, oldest
    first. The log, the device info, the preset name and the timers are left
    out. *)
Module Editor.
Record t : Type := mk {
  params : gmap string jsval;
  presets : list Preset.t;
  fetchingPresets : bool;
  fetchProgress : nat;
  currentPreset : jsval;
  connected : bool;
  dirty : bool;
  outputRef : option (list (list jsval))
}.
End Editor.

Definition setParams (f : gmap string jsval -> gmap string jsval)
    (st : Editor.t) : Editor.t :=
  Editor.mk (f (Editor.params st)) (Editor.presets st)
            (Editor.fetchingPresets st) (Editor.fetchProgress st)
            (Editor.currentPreset st) (Editor.connected st) (Editor.dirty st)
            (Editor.outputRef st).

Definition setPresets (v : list Preset.t) (st : Editor.t) : Editor.t :=
  Editor.mk (Editor.params st) v
            (Editor.fetchingPresets st) (Editor.fetchProgress st)
            (Editor.currentPreset st) (Editor.connected st) (Editor.dirty st)
            (Editor.outputRef st).

Definition setFetchingPresets (v : bool) (st : Editor.t) : Editor.t :=
  Editor.mk (Editor.params st) (Editor.presets st)
            v (Editor.fetchProgress st)
            (Editor.currentPreset st) (Editor.connected st) (Editor.dirty st)
            (Editor.outputRef st).

Definition setFetchProgress (v : nat) (st : Editor.t) : Editor.t :=
  Editor.mk (Editor.params st) (Editor.presets st)
            (Editor.fetchingPresets st) v
            (Editor.currentPreset st) (Editor.connected st) (Editor.dirty st)
            (Editor.outputRef st).

Definition setCurrentPreset (v : jsval) (st : Editor.t) : Editor.t :=
  Editor.mk (Editor.params st) (Editor.presets st)
            (Editor.fetchingPresets st) (Editor.fetchProgress st)
            v (Editor.connected st) (Editor.dirty st)
            (Editor.outputRef st).

Definition setDirty (v : bool) (st : Editor.t) : Editor.t :=
  Editor.mk (Editor.params st) (Editor.presets st)
            (Editor.fetchingPresets st) (Editor.fetchProgress st)
            (Editor.currentPreset st) (Editor.connected st) v
            (Editor.outputRef st).

(** [if (!outputRef.current) return; outputRef.current.send(msg)] *)
Definition send (msg : list jsval) (st : Editor.t) : Editor.t :=
  match Editor.outputRef st with
  | None => st
  | Some sent =>
      Editor.mk (Editor.params st) (Editor.presets st)
                (Editor.fetchingPresets st) (Editor.fetchProgress st)
                (Editor.currentPreset st) (Editor.connected st)
                (Editor.dirty st) (Some (sent ++ [msg]))
  end.

Definition sendSysEx (data : list Z) (st : Editor.t) : Editor.t :=
  send (JNum <$> data) st.

Definition sendCC (cc value : Z) (st : Editor.t) : Editor.t :=
  send [JNum (js_or 0xb0 MIDI_CHANNEL); JNum cc; JNum value] st.

Definition sendProgramChange (program : jsval) (st : Editor.t) : Editor.t :=
  send [JNum (js_or 0xc0 MIDI_CHANNEL); program] st.

(** [handleParamChange(key, value)] for a number [value]; [connected] is
    the state the handler was rendered with. *)
Definition handleParamChange (key : string) (value : Z) (st : Editor.t)
    : Editor.t :=
  let st1 := setParams (fun prev => <[key := JNum value]> prev) st in
  let st2 := setDirty true st1 in
  if Editor.connected st then
    match objGet key MIDI_CC_MAP with
    | Some def =>
        (* For toggle params, send 127 for on, 0 for off *)
        let ccValue :=
          if bool_decide (CCDef.max def = 1)
          then (if bool_decide (value <> 0) then 127 else 0)
          else value in
        sendCC (CCDef.cc def) ccValue st2
    | None => st2
    end
  else st2.

Definition requestEditBuffer (st : Editor.t) : Editor.t :=
  sendSysEx REQUEST_EDIT_BUFFER st.

Definition fetchAllPresets (st : Editor.t) : Editor.t :=
  if negb (Editor.connected st) || Editor.fetchingPresets st then st
  else
    let st1 := setFetchingPresets true st in
    let st2 := setPresets [] st1 in
    let st3 := setFetchProgress 0 st2 in
    (* Send single bulk request: device streams back all 124 programs *)
    sendSysEx REQUEST_ALL_PRESETS st3.

Definition loadPreset (preset : Preset.t) (st : Editor.t) : Editor.t :=
  (* Send program change to switch the device *)
  let st1 := sendProgramChange (Preset.number preset) st in
  (* Update UI with the stored params *)
  let st2 := setParams (fun prev => Preset.params preset ∪ prev) st1 in
  let st3 := setCurrentPreset (Preset.number preset) st2 in
  setDirty false st3.

(** [ToNumber] of a value; [None] is NaN. *)
Definition toNumber (v : jsval) : option Z :=
  match v with
  | JNum n => Some n
  | JNull => Some 0
  | JUndefined => None
  end.

(** The comparator [(a, b) => a.number - b.number] as [sort] reads it: a
    NaN result counts as 0. *)
Definition compareNumber (a b : Preset.t) : Z :=
  match toNumber (Preset.number a), toNumber (Preset.number b) with
  | Some x, Some y => x - y
  | _, _ => 0
  end.

(** [updated.sort((a, b) => a.number - b.number)]. [Array.prototype.sort]
    is stable and orders by the comparator when the comparator is a
    consistent order, which it is on numbers; stable insertion gives that
    result. *)
Fixpoint insertPreset (p : Preset.t) (sorted : list Preset.t)
    : list Preset.t :=
  match sorted with
  | [] => [p]
  | q :: rest =>
      if compareNumber p q <=? 0 then p :: q :: rest
      else q :: insertPreset p rest
  end.

Definition sortPresets (presets : list Preset.t) : list Preset.t :=
  foldr insertPreset [] presets.

(** The updater passed to [setPresets] for a parsed stored-preset dump,
    with the calls of [setFetchProgress] and [setFetchingPresets] it
    makes. *)
Definition storePreset (parsed : PatchRecord) (st : Editor.t) : Editor.t :=
  let updated :=
    filter (fun p => Preset.number p <> presetNumber parsed)
           (Editor.presets st)
    ++ [Preset.mk (presetNumber parsed) (name parsed) (params parsed)] in
  let updated := sortPresets updated in
  (* Track fetch progress *)
  let st1 :=
    if (length updated <=? 124)%nat
    then setFetchProgress (length updated) st else st in
  let st2 :=
    if (124 <=? length updated)%nat
    then setFetchingPresets false st1 else st1 in
  setPresets updated st2.

(** [handleMidiMessage] on the state of the editor: the patch-dump block,
    the Control Change block and the Program Change block, in this order. *)
Definition handleMidiMessage_state (data : list Z) (st : Editor.t)
    : Editor.t :=
  let st1 :=
    if js_strict_eq_num (js_get data 0) SYSEX_START then
      (* Patch dump response (opcode 0x01) *)
      if js_strict_eq_num (js_get data 1) 0x00
         && js_strict_eq_num (js_get data 2) 0x01
         && js_strict_eq_num (js_get data 3) 0x0c
         && js_strict_eq_num (js_get data 4) POCKET_POD_DEVICE_ID
         && js_strict_eq_num (js_get data 5) OPCODE_PATCH_DUMP
      then
        match parsePatchDump data with
        | Some parsed =>
            if isEditBuffer parsed
            then setParams (fun prev => params parsed ∪ prev) st
            else storePreset parsed st
        | None => st
        end
      else st
    else st in
  (* Handle CC messages (status 0xB0 for channel 1) *)
  let st2 :=
    if bool_decide (js_and_val (js_get data 0) 0xf0 = 0xb0) then
      match scanCCMap MIDI_CC_MAP (js_get data 1) (js_get data 2) with
      | Some (key, adjustedVal) =>
          setParams (fun prev => <[key := adjustedVal]> prev) st1
      | None => st1
      end
    else st1 in
  (* Handle Program Change (status 0xC0 for channel 1) *)
  if bool_decide (js_and_val (js_get data 0) 0xf0 = 0xc0) then
    setCurrentPreset (js_get data 1) st2
  else st2.

(** ** Notions used in the further statements *)

(** The messages sent through the port; none when there is no port. *)
Definition sentMessages (st : Editor.t) : list (list jsval) :=
  default [] (Editor.outputRef st).

(** The preset numbers are numbers in strictly increasing order. *)
Definition presetsOrdered (presets : list Preset.t) : Prop :=
  exists ns : list Z,
    Preset.number <$> presets = JNum <$> ns /\ StronglySorted Z.lt ns.

(** The number of a preset as an integer (0 when it is not a number). *)
Definition numberOf (p : Preset.t) : Z :=
  default 0 (toNumber (Preset.number p)).

(** A preset whose number is a number. *)
Definition numbered (p : Preset.t) : Prop :=
  exists n, Preset.number p = JNum n.

(** What the editor keeps of a bulk fetch: the presets in strictly
    increasing order of their numbers, and a progress counter that is their
    count, capped at 124. *)
Definition fetchConsistent (st : Editor.t) : Prop :=
  presetsOrdered (Editor.presets st)
  /\ Editor.fetchProgress st = Nat.min (length (Editor.presets st)) 124.

(** * Properties *)

(** ** Arithmetic of the 32-bit operators *)

Section Int32.

Lemma toInt32_range z : - 2 ^ 31 <= toInt32 z < 2 ^ 31.
Proof.
  unfold toInt32.
  pose proof (Z.mod_pos_bound (z + 2 ^ 31) (2 ^ 32)). lia.
Qed.

Lemma toInt32_id z : - 2 ^ 31 <= z < 2 ^ 31 -> toInt32 z = z.
Proof.
  intros Hz. unfold toInt32. rewrite Z.mod_small; lia.
Qed.

Lemma toInt32_mod256 z : toInt32 z mod 256 = z mod 256.
Proof.
  unfold toInt32.
  pose proof (Z.div_mod (z + 2 ^ 31) (2 ^ 32)) as Hdm.
  replace ((z + 2 ^ 31) mod 2 ^ 32 - 2 ^ 31)
    with (z + - ((z + 2 ^ 31) / 2 ^ 32) * 2 ^ 24 * 256) by lia.
  apply Z.mod_add. lia.
Qed.

(** Two nibbles put together: the bits of [t] below bit 8. *)
Lemma lor_nibbles_land t :
  Z.lor (Z.shiftl (Z.land (Z.shiftr t 4) (Z.ones 4)) 4) (Z.land t (Z.ones 4))
  = Z.land t (Z.ones 8).
Proof.
  apply Z.bits_inj'. intros n Hn.
  rewrite Z.lor_spec, !Z.land_spec, !Z.testbit_ones_nonneg by lia.
  destruct (Z.ltb_spec n 4) as [Hlt | Hge].
  - rewrite Z.shiftl_spec_low by lia.
    replace (n <? 8) with true by (symmetry; apply Z.ltb_lt; lia).
    reflexivity.
  - rewrite Z.shiftl_spec by lia.
    rewrite Z.land_spec, Z.shiftr_spec, Z.testbit_ones_nonneg by lia.
    replace (n - 4 + 4) with n by lia.
    replace (n - 4 <? 4) with (n <? 8).
    + now rewrite andb_false_r, orb_false_r.
    + destruct (Z.ltb_spec n 8), (Z.ltb_spec (n - 4) 4); lia || reflexivity.
Qed.

(** The byte that [(hi << 4) | lo] builds from two nibbles. *)
Lemma js_or_shl_nibbles hi lo :
  0 <= hi < 16 -> 0 <= lo < 16 -> js_or (js_shl hi 4) lo = hi * 16 + lo.
Proof.
  intros Hhi Hlo. unfold js_or, js_shl.
  change (4 mod 32) with 4.
  rewrite (toInt32_id hi), Z.shiftl_mul_pow2 by lia.
  change (2 ^ 4) with 16.
  rewrite !(toInt32_id (hi * 16)), (toInt32_id lo) by lia.
  pose proof (lor_nibbles_land (hi * 16 + lo)) as H.
  rewrite !Z.land_ones, Z.shiftr_div_pow2, Z.shiftl_mul_pow2 in H by lia.
  change (2 ^ 4) with 16 in H. change (2 ^ 8) with 256 in H.
  replace ((hi * 16 + lo) / 16) with hi in H
    by (rewrite Z.div_add_l, Z.div_small; lia).
  replace ((hi * 16 + lo) mod 16) with lo in H
    by (rewrite Z.add_comm, Z.mod_add, Z.mod_small; lia).
  rewrite (Z.mod_small hi), (Z.mod_small (hi * 16 + lo)) in H by lia.
  exact H.
Qed.

(** Splitting an integer in two nibbles, as the test helper does, and
    putting them together again keeps its low eight bits. *)
Lemma nibble_round_trip b :
  js_or (js_shl (js_and (js_sar b 4) 0x0F) 4) (js_and b 0x0F) = b mod 256.
Proof.
  unfold js_and, js_sar. change (4 mod 32) with 4.
  pose proof (toInt32_range b) as Hb. set (t := toInt32 b) in *.
  rewrite (toInt32_id 15) by lia.
  assert (Ht4 : - 2 ^ 31 <= Z.shiftr t 4 < 2 ^ 31).
  { rewrite Z.shiftr_div_pow2 by lia. change (2 ^ 4) with 16.
    pose proof (Z.div_le_mono (- 2 ^ 31) t 16).
    pose proof (Z.div_lt_upper_bound t 16 (2 ^ 31)). 
    change (- 2 ^ 31 / 16) with (- 2 ^ 27) in *. lia. }
  rewrite (toInt32_id (Z.shiftr t 4)) by exact Ht4.
  change 15 with (Z.ones 4).
  assert (Hh : 0 <= Z.land (Z.shiftr t 4) (Z.ones 4) < 16).
  { rewrite Z.land_ones by lia. apply Z.mod_pos_bound. lia. }
  assert (Hl : 0 <= Z.land t (Z.ones 4) < 16).
  { rewrite Z.land_ones by lia. apply Z.mod_pos_bound. lia. }
  rewrite js_or_shl_nibbles by assumption.
  rewrite <- (toInt32_mod256 b). fold t.
  rewrite !Z.land_ones, Z.shiftr_div_pow2 by lia.
  change (2 ^ 4) with 16.
  pose proof (Z.div_mod t 16). pose proof (Z.div_mod (t / 16) 16).
  pose proof (Z.mod_pos_bound t 16). pose proof (Z.mod_pos_bound (t / 16) 16).
  apply (Z.mod_unique_pos t 256 (t / 16 / 16)); lia.
Qed.

End Int32.

(** ** The nibble decoder *)

Section DecodeNibbles.

(** Induction over a list two elements at a time, as the loop walks it. *)
Lemma list_pair_ind (P : list Z -> Prop) :
  P [] ->
  (forall x, P [x]) ->
  (forall x y l, P l -> P (x :: y :: l)) ->
  forall l, P l.
Proof.
  intros Hnil Hone Hstep.
  assert (Hboth : forall l, P l /\ forall x, P (x :: l)).
  { induction l as [| y l [IHl IHxl]]; split; auto. }
  intros l. apply Hboth.
Qed.

Lemma decodeNibbles_length data :
  length (decodeNibbles data) = (length data / 2)%nat.
Proof.
  induction data as [| x | x y l IH] using list_pair_ind; try reflexivity.
  cbn [decodeNibbles length]. rewrite IH.
  change (S (S (length l))) with (1 * 2 + length l)%nat.
  rewrite Nat.div_add_l by lia. reflexivity.
Qed.

Lemma decodeNibbles_lookup data (i : nat) hi lo :
  data !! (2 * i)%nat = Some hi ->
  data !! (2 * i + 1)%nat = Some lo ->
  decodeNibbles data !! i = Some (js_or (js_shl hi 4) lo).
Proof.
  revert i. induction data as [| x | x y l IH] using list_pair_ind;
    intros i Hhi Hlo.
  - discriminate.
  - destruct i as [| i]; [discriminate |].
    replace (2 * S i)%nat with (S (S (2 * i))) in Hhi by lia. discriminate.
  - destruct i as [| i].
    + cbn in Hhi, Hlo. now simplify_eq.
    + replace (2 * S i)%nat with (S (S (2 * i))) in Hhi by lia.
      replace (2 * S i + 1)%nat with (S (S (2 * i + 1))) in Hlo by lia.
      cbn [decodeNibbles]. cbn in Hhi, Hlo |- *. now apply IH.
Qed.

Lemma decodeNibbles_app l1 l2 :
  Nat.Even (length l1) ->
  decodeNibbles (l1 ++ l2) = decodeNibbles l1 ++ decodeNibbles l2.
Proof.
  induction l1 as [| x | x y l IH] using list_pair_ind; intros Hev.
  - reflexivity.
  - destruct Hev as [k Hk]. cbn in Hk. lia.
  - cbn [app decodeNibbles]. rewrite IH; [reflexivity |].
    destruct Hev as [k Hk]. cbn in Hk. exists (k - 1)%nat. lia.
Qed.

Lemma decodeNibbles_odd_tail data x :
  Nat.Even (length data) ->
  decodeNibbles (data ++ [x]) = decodeNibbles data.
Proof.
  intros Hev. rewrite decodeNibbles_app by exact Hev.
  cbn. apply app_nil_r.
Qed.

(** The loop with its index computes the same list. *)
Lemma decodeNibbles_for_drop fuel data i bytes :
  (length data - i <= 2 * fuel)%nat ->
  decodeNibbles_for fuel data i bytes = bytes ++ decodeNibbles (drop i data).
Proof.
  revert i bytes. induction fuel as [| fuel IH]; intros i bytes Hfuel.
  - cbn [decodeNibbles_for]. rewrite drop_ge by lia. cbn. now rewrite app_nil_r.
  - cbn [decodeNibbles_for].
    destruct (Z.ltb_spec (Z.of_nat i) (Z.of_nat (length data) - 1))
      as [Hlt | Hge].
    + destruct (lookup_lt_is_Some_2 data i) as [hi Hhi]; [lia |].
      destruct (lookup_lt_is_Some_2 data (i + 1)) as [lo Hlo]; [lia |].
      rewrite Hhi, Hlo, IH by lia.
      rewrite (drop_S data hi i Hhi).
      rewrite (drop_S data lo (S i)) by (now rewrite <- Nat.add_1_r).
      cbn [decodeNibbles]. rewrite <- app_assoc.
      now replace (S (S i)) with (i + 2)%nat by lia.
    + destruct (drop i data) as [| x [| y rest]] eqn:Hdrop.
      * cbn. now rewrite app_nil_r.
      * cbn. now rewrite app_nil_r.
      * apply (f_equal length) in Hdrop. rewrite length_drop in Hdrop.
        cbn in Hdrop. lia.
Qed.

Lemma decodeNibbles_for_eq data :
  decodeNibbles_for (length data) data 0 [] = decodeNibbles data.
Proof. rewrite decodeNibbles_for_drop by lia. now rewrite drop_0. Qed.

(** Decoding what the test helper encodes keeps the low eight bits of
    every element. *)
Lemma decodeNibbles_nibblized (bytes : list Z) :
  decodeNibbles
    (flat_map (fun byte => [js_and (js_sar byte 4) 0x0F; js_and byte 0x0F])
              bytes)
  = map (fun byte => byte mod 256) bytes.
Proof.
  induction bytes as [| b bytes IH]; [reflexivity |].
  cbn [flat_map app decodeNibbles map].
  now rewrite nibble_round_trip, IH.
Qed.

End DecodeNibbles.

(** ** Trimming *)

Section Trim.

Lemma trimStart_split s :
  exists pre, s = pre ++ trimStart s /\ allWhite pre.
Proof.
  induction s as [| c s (pre & Hs & Hpre)].
  - exists []. split; [reflexivity | constructor].
  - cbn [trimStart]. destruct (isWhiteSpace c) eqn:Hc.
    + exists (c :: pre). split; [cbn; congruence | now constructor].
    + exists []. split; [reflexivity | constructor].
Qed.

Lemma trimStart_cleanHead s : cleanHead (trimStart s).
Proof.
  induction s as [| c s IH]; intros d Hd; [discriminate |].
  cbn [trimStart] in Hd. destruct (isWhiteSpace c) eqn:Hc.
  - now apply IH.
  - cbn in Hd. congruence.
Qed.

Lemma trimStart_id s : cleanHead s -> trimStart s = s.
Proof.
  destruct s as [| c s]; [reflexivity |]. intros Hs.
  cbn [trimStart]. now rewrite (Hs c eq_refl).
Qed.

Lemma last_rev_head (s : jsstring) : last (rev s) = head s.
Proof.
  destruct s as [| c s]; [reflexivity |].
  cbn [rev]. now rewrite last_snoc.
Qed.

Lemma head_rev_last (s : jsstring) : head (rev s) = last s.
Proof. now rewrite <- last_rev_head, rev_involutive. Qed.

Lemma trimEnd_split s :
  exists suf, s = trimEnd s ++ suf /\ allWhite suf.
Proof.
  unfold trimEnd. destruct (trimStart_split (rev s)) as (pre & Hs & Hpre).
  exists (rev pre). split.
  - rewrite <- rev_app_distr, <- Hs. now rewrite rev_involutive.
  - now apply List.Forall_rev.
Qed.

Lemma trimEnd_cleanLast s : cleanLast (trimEnd s).
Proof.
  intros c Hc. unfold trimEnd in Hc. rewrite last_rev_head in Hc.
  now apply (trimStart_cleanHead (rev s)).
Qed.

Lemma trimEnd_id s : cleanLast s -> trimEnd s = s.
Proof.
  intros Hs. unfold trimEnd. rewrite trimStart_id.
  - apply rev_involutive.
  - intros c Hc. rewrite head_rev_last in Hc. now apply Hs.
Qed.

(** Cutting white space at the end does not uncover white space at the
    front. *)
Lemma trimEnd_cleanHead s : cleanHead s -> cleanHead (trimEnd s).
Proof.
  intros Hs c Hc. destruct (trimEnd_split s) as (suf & Heq & _).
  destruct (trimEnd s) as [| d r]; [discriminate |].
  apply Hs. rewrite Heq. exact Hc.
Qed.

(** What [trim] keeps: the string without a white prefix and a white
    suffix, with no white space left at either end. *)
Lemma trim_split s :
  exists pre suf,
    s = pre ++ trim s ++ suf /\ allWhite pre /\ allWhite suf
    /\ cleanHead (trim s) /\ cleanLast (trim s).
Proof.
  unfold trim.
  destruct (trimStart_split s) as (pre & Hs & Hpre).
  destruct (trimEnd_split (trimStart s)) as (suf & Ht & Hsuf).
  exists pre, suf. repeat split; try assumption.
  - now rewrite <- Ht.
  - apply trimEnd_cleanHead, trimStart_cleanHead.
  - apply trimEnd_cleanLast.
Qed.

Lemma trim_id s : cleanHead s -> cleanLast s -> trim s = s.
Proof.
  intros Hh Hl. unfold trim. rewrite trimStart_id by exact Hh.
  now apply trimEnd_id.
Qed.

Lemma join_fromCharCode (bytes : list Z) :
  join (map fromCharCode bytes) = map (fun b => b mod 2 ^ 16) bytes.
Proof.
  induction bytes as [| b bytes IH]; [reflexivity |].
  cbn [map]. unfold join in *. cbn [concat]. now rewrite IH.
Qed.

End Trim.

(** ** The patch-dump parser *)

Section ParsePatchDump.

Lemma slice_length {A} (s e : nat) (arr : list A) :
  length (slice s e arr) = Nat.min (e - s) (length arr - s).
Proof. unfold slice. now rewrite length_take, length_drop. Qed.

Lemma isEditBuffer_decide data :
  js_strict_eq_num (js_get data 6) 0x01
  = bool_decide (data !! 6%nat = Some 0x01).
Proof.
  unfold js_get. destruct (data !! 6%nat) as [n |]; cbn.
  - apply bool_decide_ext. split; congruence.
  - symmetry. now apply bool_decide_eq_false.
Qed.

(** [parsePatchDump] with its local variables spelled out. *)
Lemma parsePatchDump_unfold data :
  parsePatchDump data =
  let edit := bool_decide (data !! 6%nat = Some 0x01) in
  let payload := take 142 (drop (nibbleStart data) data) in
  if (length payload <? 142)%nat then None
  else
    Some (mkPatchRecord
            (trim (join (map fromCharCode
                              (slice 55 71 (decodeNibbles payload)))))
            (mapParams (decodeNibbles payload) PATCH_PARAM_MAP ∅)
            (if edit then JNull else js_get data 7)
            edit).
Proof.
  unfold parsePatchDump, nibbleStart, slice.
  rewrite isEditBuffer_decide.
  destruct (bool_decide (data !! 6%nat = Some 1)); reflexivity.
Qed.

Lemma parsePatchDump_None data :
  (length (drop (nibbleStart data) data) < 142)%nat ->
  parsePatchDump data = None.
Proof.
  intros Hshort. rewrite parsePatchDump_unfold. cbv zeta.
  rewrite length_take.
  destruct (Nat.ltb_spec (142 `min` length (drop (nibbleStart data) data)) 142)
    as [_ | Hge]; [reflexivity | lia].
Qed.

Lemma parsePatchDump_Some data :
  (142 <= length (drop (nibbleStart data) data))%nat ->
  exists r, parsePatchDump data = Some r
    /\ isEditBuffer r = bool_decide (data !! 6%nat = Some 0x01)
    /\ presetNumber r
       = (if bool_decide (data !! 6%nat = Some 0x01)
          then JNull else js_get data 7)
    /\ params r
       = mapParams (decodeNibbles (take 142 (drop (nibbleStart data) data)))
                   PATCH_PARAM_MAP ∅.
Proof.
  intros Hlong. rewrite parsePatchDump_unfold. cbv zeta.
  rewrite length_take.
  destruct (Nat.ltb_spec (142 `min` length (drop (nibbleStart data) data)) 142)
    as [Hlt | _]; [lia |].
  eexists. split; [reflexivity |]. cbn. auto.
Qed.

(** A successful parse had a full payload. *)
Lemma parsePatchDump_Some_inv data r :
  parsePatchDump data = Some r ->
  (142 <= length (drop (nibbleStart data) data))%nat.
Proof.
  intros Hr.
  destruct (Nat.le_gt_cases 142 (length (drop (nibbleStart data) data)))
    as [Hle | Hgt]; [exact Hle |].
  rewrite parsePatchDump_None in Hr by exact Hgt. discriminate.
Qed.

(** The parser reads nothing before index 6. *)
Lemma parsePatchDump_tail data data' :
  drop 6 data' = drop 6 data -> parsePatchDump data' = parsePatchDump data.
Proof.
  intros Htail.
  assert (Hget : forall i, data' !! (6 + i)%nat = data !! (6 + i)%nat).
  { intros i. now rewrite <- !lookup_drop, Htail. }
  assert (Hdrop : forall k, drop (6 + k) data' = drop (6 + k) data).
  { intros k. rewrite <- !drop_drop. now rewrite Htail. }
  pose proof (Hget 0%nat) as H6. pose proof (Hget 1%nat) as H7.
  pose proof (Hdrop 2%nat) as H8. pose proof (Hdrop 3%nat) as H9.
  cbn [Nat.add] in H6, H7, H8, H9.
  rewrite !parsePatchDump_unfold. unfold nibbleStart, js_get.
  rewrite H6, H7.
  destruct (bool_decide (data !! 6%nat = Some 1)).
  - now rewrite H8.
  - now rewrite H9.
Qed.

(** *** The parameter loop *)

Lemma mapParams_cons decoded off key table acc :
  mapParams decoded ((off, key) :: table) acc
  = mapParams decoded table (<[key := js_get decoded off]> acc).
Proof. reflexivity. Qed.

Lemma mapParams_lookup_other decoded table acc key :
  key ∉ table.*2 ->
  mapParams decoded table acc !! key = acc !! key.
Proof.
  revert acc. induction table as [| [off k] table IH]; intros acc Hnot.
  - reflexivity.
  - rewrite mapParams_cons, IH.
    + apply lookup_insert_ne. intros ->. apply Hnot. cbn. left.
    + intros Hin. apply Hnot. cbn. now right.
Qed.

Lemma mapParams_lookup decoded table acc off key :
  NoDup table.*2 ->
  (off, key) ∈ table ->
  mapParams decoded table acc !! key = Some (js_get decoded off).
Proof.
  revert acc. induction table as [| [o k] table IH]; intros acc Hnd Hin.
  - now apply elem_of_nil in Hin.
  - cbn in Hnd. apply NoDup_cons in Hnd as [Hk Hnd].
    rewrite mapParams_cons. apply elem_of_cons in Hin as [Heq | Hin].
    + simplify_eq. rewrite mapParams_lookup_other by exact Hk.
      apply lookup_insert_eq.
    + now apply IH.
Qed.

Lemma mapParams_dom decoded table acc :
  dom (mapParams decoded table acc) = list_to_set table.*2 ∪ dom acc.
Proof.
  revert acc. induction table as [| [o k] table IH]; intros acc.
  - cbn. now rewrite (left_id_L ∅ (∪)).
  - rewrite mapParams_cons, IH, dom_insert_L. cbn [fmap list_fmap snd].
    change (list_to_set (k :: table.*2) : gset string)
      with ({[k]} ∪ list_to_set table.*2 : gset string).
    rewrite (comm_L (∪) {[k]} (list_to_set table.*2)).
    now rewrite (assoc_L (∪)).
Qed.

Lemma PATCH_PARAM_MAP_keys_NoDup : NoDup PATCH_PARAM_MAP.*2.
Proof. apply (bool_decide_unpack _). vm_compute. exact I. Qed.

Lemma PATCH_PARAM_MAP_offsets :
  Forall (fun entry : nat * string => (entry.1 < 55)%nat) PATCH_PARAM_MAP.
Proof. apply (bool_decide_unpack _). vm_compute. exact I. Qed.

Lemma PATCH_PARAM_MAP_offset off key :
  (off, key) ∈ PATCH_PARAM_MAP -> (off < 55)%nat.
Proof.
  intros Hin.
  exact (proj1 (Forall_forall _ _) PATCH_PARAM_MAP_offsets (off, key) Hin).
Qed.

End ParsePatchDump.

(** ** Building a dump and parsing it *)

Section RoundTrip.

Lemma buildPatchDump_shape e pn pb nm :
  buildPatchDump e pn (Some pb) nm
  = [0xf0; 0x00; 0x01; 0x0c; 0x01; 0x01]
    ++ (if e then [0x01; 0x00] else [0x00; pn; 0x00])
    ++ flat_map (fun byte => [js_and (js_sar byte 4) 0x0F; js_and byte 0x0F])
                (pb ++ slice 0 16 (nm ++ replicate (16 - length nm) 0x20))
    ++ [0xf7].
Proof. reflexivity. Qed.

Lemma nibblized_length (bytes : list Z) :
  length
    (flat_map (fun byte => [js_and (js_sar byte 4) 0x0F; js_and byte 0x0F])
              bytes)
  = (2 * length bytes)%nat.
Proof.
  induction bytes as [| b bytes IH]; [reflexivity |].
  cbn [flat_map app length]. rewrite IH. lia.
Qed.

Lemma map_mod256_bytes (bytes : list Z) :
  Forall (fun b => 0 <= b < 256) bytes ->
  map (fun b => b mod 256) bytes = bytes.
Proof.
  induction 1 as [| b bytes Hb _ IH]; [reflexivity |].
  cbn [map]. rewrite IH, Z.mod_small by lia. reflexivity.
Qed.

Lemma map_mod65536_mod256 (s : jsstring) :
  map (fun b => b mod 2 ^ 16) (map (fun c => c mod 256) s)
  = map (fun c => c mod 256) s.
Proof.
  rewrite map_map. apply map_ext. intros c.
  pose proof (Z.mod_pos_bound c 256). apply Z.mod_small. lia.
Qed.

(** The record that parsing a built dump gives. *)
Lemma parse_built_dump_eq e pn pb nm :
  length nm = 16%nat ->
  length pb = 55%nat ->
  Forall (fun b => 0 <= b < 256) pb ->
  parsePatchDump (buildPatchDump e pn (Some pb) nm)
  = Some (mkPatchRecord
            (trim (map (fun c => c mod 256) nm))
            (mapParams (pb ++ map (fun c => c mod 256) nm) PATCH_PARAM_MAP ∅)
            (if e then JNull else JNum pn)
            e).
Proof.
  intros Hnm Hpb Hbytes.
  rewrite buildPatchDump_shape, Hnm. cbn [Nat.sub replicate].
  rewrite app_nil_r.
  assert (Hname : slice 0 16 nm = nm).
  { unfold slice. cbn [Nat.sub drop]. apply take_ge. lia. }
  rewrite Hname.
  set (nib := flat_map _ (pb ++ nm)).
  assert (Hlen : length nib = 142%nat).
  { subst nib. rewrite nibblized_length, length_app. lia. }
  assert (Hdec : decodeNibbles nib = pb ++ map (fun c => c mod 256) nm).
  { subst nib. rewrite decodeNibbles_nibblized, map_app.
    now rewrite map_mod256_bytes. }
  assert (Hpay : take 142 (nib ++ [0xf7]) = nib).
  { rewrite take_app_le by lia. apply take_ge. lia. }
  assert (Hsl : slice 55 71 (pb ++ map (fun c => c mod 256) nm)
                = map (fun c => c mod 256) nm).
  { unfold slice. rewrite drop_app_length' by (symmetry; exact Hpb).
    apply take_ge. rewrite length_map. lia. }
  clearbody nib.
  rewrite parsePatchDump_unfold.
  destruct e; cbn [app]; cbv zeta.
  - repeat match goal with
           | |- context [nibbleStart ?d] => change (nibbleStart d) with 8%nat
           | |- context [bool_decide ?P] => change (bool_decide P) with true
           end.
    cbn [drop]. rewrite drop_0, Hpay, Hlen, Hdec, Hsl.
    now rewrite join_fromCharCode, map_mod65536_mod256.
  - repeat match goal with
           | |- context [nibbleStart ?d] => change (nibbleStart d) with 9%nat
           | |- context [bool_decide ?P] => change (bool_decide P) with false
           end.
    cbn [drop]. rewrite drop_0, Hpay, Hlen, Hdec, Hsl.
    now rewrite join_fromCharCode, map_mod65536_mod256.
Qed.

(** What the parameter loop reads from a built dump. *)
Lemma built_params_lookup pb (tail : list Z) off key :
  length pb = 55%nat ->
  (off, key) ∈ PATCH_PARAM_MAP ->
  exists b, pb !! off = Some b
    /\ mapParams (pb ++ tail) PATCH_PARAM_MAP ∅ !! key = Some (JNum b).
Proof.
  intros Hpb Hin.
  pose proof (PATCH_PARAM_MAP_offset off key Hin) as Hoff.
  destruct (lookup_lt_is_Some_2 pb off) as [b Hb]; [lia |].
  exists b. split; [exact Hb |].
  rewrite (mapParams_lookup _ _ _ off key PATCH_PARAM_MAP_keys_NoDup Hin).
  unfold js_get. now rewrite lookup_app_l, Hb by lia.
Qed.

End RoundTrip.

(** ** The Control Change block *)

Section ControlChange.

Lemma MIDI_CC_MAP_cc_NoDup : NoDup (ccOf <$> MIDI_CC_MAP).
Proof. apply (bool_decide_unpack _). vm_compute. exact I. Qed.

Lemma MIDI_CC_MAP_keys_NoDup : NoDup MIDI_CC_MAP.*1.
Proof. apply (bool_decide_unpack _). vm_compute. exact I. Qed.

Lemma scanCCMap_found entries key def val :
  NoDup (ccOf <$> entries) ->
  (key, def) ∈ entries ->
  scanCCMap entries (JNum (CCDef.cc def)) (JNum val)
  = Some (key, JNum (adjustedVal def val)).
Proof.
  induction entries as [| [k d] entries IH]; intros Hnd Hin.
  - now apply elem_of_nil in Hin.
  - rewrite fmap_cons in Hnd. apply NoDup_cons in Hnd as [Hfresh Hnd].
    change (ccOf (k, d)) with (CCDef.cc d) in Hfresh.
    cbn [scanCCMap]. apply elem_of_cons in Hin as [Heq | Hin].
    + simplify_eq. rewrite bool_decide_eq_true_2 by reflexivity.
      unfold adjustedVal, js_ge_num.
      repeat case_bool_decide; reflexivity.
    + rewrite bool_decide_eq_false_2; [now apply IH |].
      intros Heq. apply Hfresh. injection Heq as Heq. rewrite Heq.
      apply (list_elem_of_fmap_2 ccOf entries (key, def) Hin).
Qed.

Lemma scanCCMap_absent entries cc val :
  cc ∉ (ccOf <$> entries) ->
  scanCCMap entries (JNum cc) val = None.
Proof.
  induction entries as [| [k d] entries IH]; intros Hnot; [reflexivity |].
  cbn [scanCCMap]. rewrite bool_decide_eq_false_2.
  - apply IH. intros Hin. apply Hnot. rewrite fmap_cons. now right.
  - intros Heq. apply Hnot. injection Heq as Heq. rewrite <- Heq.
    rewrite fmap_cons. left.
Qed.

(** A status byte of the Control Change kind is not the SysEx start. *)
Lemma cc_status_not_sysex status :
  js_and status 0xf0 = 0xb0 ->
  js_strict_eq_num (JNum status) SYSEX_START = false.
Proof.
  intros Hst. cbn. apply bool_decide_eq_false_2. intros ->.
  vm_compute in Hst. discriminate.
Qed.

(** On a Control Change message only the Control Change block runs. *)
Lemma handleMidiMessage_cc status cc val (tail : list Z) prev :
  js_and status 0xf0 = 0xb0 ->
  handleMidiMessage (status :: cc :: val :: tail) prev
  = match scanCCMap MIDI_CC_MAP (JNum cc) (JNum val) with
    | Some (key, v) => <[key := v]> prev
    | None => prev
    end.
Proof.
  intros Hst. unfold handleMidiMessage.
  change (js_get (status :: cc :: val :: tail) 0) with (JNum status).
  change (js_get (status :: cc :: val :: tail) 1) with (JNum cc).
  change (js_get (status :: cc :: val :: tail) 2) with (JNum val).
  rewrite (cc_status_not_sysex status Hst). cbn [andb].
  unfold js_and_val. now rewrite bool_decide_eq_true_2 by exact Hst.
Qed.

(** A Control Change message for the controller of a descriptor stores the
    adjusted value under the key of that descriptor. *)
Lemma handleMidiMessage_descriptor status val key def prev :
  js_and status 0xf0 = 0xb0 ->
  (key, def) ∈ MIDI_CC_MAP ->
  handleMidiMessage [status; CCDef.cc def; val] prev
  = <[key := JNum (adjustedVal def val)]> prev.
Proof.
  intros Hst Hin.
  rewrite (handleMidiMessage_cc status (CCDef.cc def) val [] prev Hst).
  now rewrite (scanCCMap_found MIDI_CC_MAP key def val
                 MIDI_CC_MAP_cc_NoDup Hin).
Qed.

End ControlChange.

(** * Main results *)

(** ** The nibble codec *)

(** C4. [decodeNibbles] consumes its input as consecutive pairs: the output
    has half as many elements as the input (rounded down), the element at
    position [i] is [(hi << 4) | lo] for the pair [hi], [lo] at positions
    [2i] and [2i + 1], the empty input gives the empty output, and the last
    element of an input of odd length is dropped. *)
Theorem decodeNibbles_pairs (data : list Z) :
  length (decodeNibbles data) = (length data / 2)%nat
  /\ (forall (i : nat) hi lo,
        data !! (2 * i)%nat = Some hi ->
        data !! (2 * i + 1)%nat = Some lo ->
        decodeNibbles data !! i = Some (js_or (js_shl hi 4) lo))
  /\ decodeNibbles [] = []
  /\ (forall x, Nat.Even (length data) ->
        decodeNibbles (data ++ [x]) = decodeNibbles data).
Proof.
  split; [apply decodeNibbles_length |].
  split; [intros i hi lo; apply decodeNibbles_lookup |].
  split; [reflexivity |].
  intros x. apply decodeNibbles_odd_tail.
Qed.

Lemma decodeNibbles_pairs_witness :
  decodeNibbles [0x03; 0x07; 0x0F] !! 0%nat = Some 0x37
  /\ decodeNibbles ([0x03; 0x07] ++ [0x0F]) = decodeNibbles [0x03; 0x07]
  /\ length (decodeNibbles [0x03; 0x07; 0x0F]) = 1%nat.
Proof.
  destruct (decodeNibbles_pairs [0x03; 0x07; 0x0F]) as (Hlen & Hpair & _ & _).
  destruct (decodeNibbles_pairs [0x03; 0x07]) as (_ & _ & _ & Hodd).
  split; [exact (Hpair 0%nat 0x03 0x07 eq_refl eq_refl) |].
  split; [apply Hodd; exists 1%nat; reflexivity | exact Hlen].
Defined.

(** The examples of the test suite. *)
Example decodeNibbles_examples :
  decodeNibbles [0x0A; 0x05] = [0xA5]
  /\ decodeNibbles [0x04; 0x02; 0x0F; 0x00] = [0x42; 0xF0]
  /\ decodeNibbles [0x0F; 0x0F] = [0xFF]
  /\ decodeNibbles [0x03; 0x07; 0x0F] = [0x37].
Proof. repeat split; reflexivity. Qed.

(** C3, as the code has it. [decodePatchName] decodes the nibbles, reads
    every byte as a character code and cuts white space at both ends of the
    name: the result is the decoded string without a prefix and a suffix of
    white space, and neither begins nor ends with white space; what lies
    between is kept as it is. *)
Theorem decodePatchName_trims_both_ends (nibbles : list Z) :
  exists pre suf,
    map (fun b => b mod 2 ^ 16) (decodeNibbles nibbles)
    = pre ++ decodePatchName nibbles ++ suf
    /\ allWhite pre /\ allWhite suf
    /\ cleanHead (decodePatchName nibbles)
    /\ cleanLast (decodePatchName nibbles).
Proof.
  unfold decodePatchName. rewrite join_fromCharCode. apply trim_split.
Qed.

(** C3, as stated, fails: the nibbles of [" A"] (a leading space) decode to
    ["A"], whereas cutting trailing white space only would keep [" A"]. *)
Lemma decodePatchName_strips_leading_space :
  decodePatchName [0x02; 0x00; 0x04; 0x01] = of_string "A"
  /\ decodePatchName_trailing_only [0x02; 0x00; 0x04; 0x01] = of_string " A"
  /\ decodePatchName [0x02; 0x00; 0x04; 0x01]
     <> decodePatchName_trailing_only [0x02; 0x00; 0x04; 0x01].
Proof. repeat split; try reflexivity. discriminate. Qed.

(** The examples of the test suite: trailing padding is cut, an inner space
    stays. *)
Example decodePatchName_examples :
  decodePatchName [0x04; 0x08; 0x06; 0x09] = of_string "Hi"
  /\ decodePatchName [0x04; 0x01; 0x02; 0x00] = of_string "A"
  /\ decodePatchName [] = of_string ""
  /\ decodePatchName [4; 8; 2; 0; 6; 9; 2; 0; 2; 0] = of_string "H i".
Proof. repeat split; reflexivity. Qed.

(** ** The patch-dump parser *)

(** C2. When fewer than 142 elements remain after the start index of the
    nibblized payload (8 for an edit-buffer frame, 9 otherwise),
    [parsePatchDump] returns [null]. The function is total on arrays of
    integers: reading past the end gives [undefined] and nothing throws. *)
Theorem parsePatchDump_too_short (data : list Z) :
  (data !! 6%nat = Some 0x01 ->
   (length data < 8 + 142)%nat -> parsePatchDump data = None)
  /\ (data !! 6%nat <> Some 0x01 ->
      (length data < 9 + 142)%nat -> parsePatchDump data = None).
Proof.
  split; intros H6 Hlen; apply parsePatchDump_None; unfold nibbleStart.
  - rewrite bool_decide_eq_true_2 by exact H6. rewrite length_drop. lia.
  - rewrite bool_decide_eq_false_2 by exact H6. rewrite length_drop. lia.
Qed.

Lemma parsePatchDump_too_short_witness :
  parsePatchDump [0xf0; 0x00; 0x01; 0x0c; 0x01; 0x01; 0x01; 0x00; 0xf7] = None
  /\ parsePatchDump [0xf0; 0x00; 0x01; 0x0c; 0x01; 0x01; 0x00; 0x2a] = None
  /\ parsePatchDump [] = None.
Proof.
  split; [| split].
  - apply (proj1 (parsePatchDump_too_short _)); [reflexivity | cbn; lia].
  - apply (proj2 (parsePatchDump_too_short _)); [discriminate | cbn; lia].
  - apply (proj2 (parsePatchDump_too_short _)); [discriminate | cbn; lia].
Defined.

(** C10. [parsePatchDump] never reads the elements 0 to 5: whatever the
    frame, any array with the same elements from index 6 on parses to the
    same result. It branches on element 6 alone: with [0x01] there and at
    least 150 elements it returns the edit-buffer record read from index 8
    on, with any other element 6 and at least 151 elements it returns the
    stored-preset record read from index 9 on with element 7 as preset
    number, and it returns [null] exactly for the shorter frames. *)
Theorem parsePatchDump_ignores_header (data : list Z) :
  (forall data', drop 6 data' = drop 6 data ->
     parsePatchDump data' = parsePatchDump data)
  /\ (data !! 6%nat = Some 0x01 -> (150 <= length data)%nat ->
      parsePatchDump data
      = Some (mkPatchRecord
                (trim (join (map fromCharCode
                                 (slice 55 71
                                        (decodeNibbles (slice 8 150 data))))))
                (mapParams (decodeNibbles (slice 8 150 data))
                           PATCH_PARAM_MAP ∅)
                JNull true))
  /\ (data !! 6%nat <> Some 0x01 -> (151 <= length data)%nat ->
      parsePatchDump data
      = Some (mkPatchRecord
                (trim (join (map fromCharCode
                                 (slice 55 71
                                        (decodeNibbles (slice 9 151 data))))))
                (mapParams (decodeNibbles (slice 9 151 data))
                           PATCH_PARAM_MAP ∅)
                (js_get data 7) false))
  /\ (parsePatchDump data = None
      <-> (length data
           < if bool_decide (data !! 6 = Some 1%Z) then 150 else 151)%nat).
Proof.
  split; [intros data'; apply parsePatchDump_tail |].
  assert (Hlong : (142 <= length (drop (nibbleStart data) data))%nat ->
            (length (take 142 (drop (nibbleStart data) data)) <? 142)%nat
            = false).
  { intros Hlen. apply Nat.ltb_ge. rewrite length_take. lia. }
  split; [| split].
  - intros H6 Hlen. rewrite parsePatchDump_unfold. cbv zeta.
    unfold nibbleStart in *. rewrite bool_decide_eq_true_2 in * by exact H6.
    rewrite Hlong by (rewrite length_drop; lia). reflexivity.
  - intros H6 Hlen. rewrite parsePatchDump_unfold. cbv zeta.
    unfold nibbleStart in *. rewrite bool_decide_eq_false_2 in * by exact H6.
    rewrite Hlong by (rewrite length_drop; lia). reflexivity.
  - assert (Hstart : nibbleStart data
              = if bool_decide (data !! 6%nat = Some 0x01)
                then 8%nat else 9%nat) by reflexivity.
    destruct (bool_decide (data !! 6%nat = Some 0x01)); split.
    + intros Hnone.
      destruct (Nat.lt_ge_cases (length data) 150) as [Hlt | Hge];
        [exact Hlt | exfalso].
      destruct (parsePatchDump_Some data) as (r & Hr & _);
        [rewrite length_drop; lia | congruence].
    + intros Hshort. apply parsePatchDump_None. rewrite length_drop. lia.
    + intros Hnone.
      destruct (Nat.lt_ge_cases (length data) 151) as [Hlt | Hge];
        [exact Hlt | exfalso].
      destruct (parsePatchDump_Some data) as (r & Hr & _);
        [rewrite length_drop; lia | congruence].
    + intros Hshort. apply parsePatchDump_None. rewrite length_drop. lia.
Qed.

Lemma parsePatchDump_ignores_header_witness :
  parsePatchDump ([0xf0; 0x00; 0x01; 0x0c; 0x01; 0x01]
                  ++ [0x01; 0x00] ++ replicate 142 0)
  = parsePatchDump (replicate 6 0x55 ++ [0x01; 0x00] ++ replicate 142 0)
  /\ isEditBuffer
       <$> parsePatchDump (replicate 6 0x55 ++ [0x01; 0x00] ++ replicate 142 0)
     = Some true
  /\ presetNumber
       <$> parsePatchDump
             (replicate 6 0x55 ++ [0x02; 0x2a; 0x00] ++ replicate 142 0)
     = Some (JNum 0x2a)
  /\ parsePatchDump (replicate 6 0x55 ++ [0x01; 0x00] ++ replicate 141 0)
     = None.
Proof.
  destruct (parsePatchDump_ignores_header
              (replicate 6 0x55 ++ [0x01; 0x00] ++ replicate 142 0))
    as (Hsame & Hedit & _ & _).
  destruct (parsePatchDump_ignores_header
              (replicate 6 0x55 ++ [0x02; 0x2a; 0x00] ++ replicate 142 0))
    as (_ & _ & Hstored & _).
  destruct (parsePatchDump_ignores_header
              (replicate 6 0x55 ++ [0x01; 0x00] ++ replicate 141 0))
    as (_ & _ & _ & Hnone).
  split; [apply Hsame; reflexivity |].
  split; [rewrite Hedit; [reflexivity | reflexivity | vm_compute; lia] |].
  split; [rewrite Hstored; [reflexivity | discriminate | vm_compute; lia] |].
  apply Hnone. vm_compute. lia.
Defined.

(** C8, as the code has it. When [parsePatchDump] succeeds, its parameter
    mapping has one entry for every entry of [PATCH_PARAM_MAP] and no other,
    and the value under a key is the byte [(hi << 4) | lo] decoded from the
    two payload elements at its offset, without validation: it lies within
    0..127 when [hi] is a nibble below 8 and [lo] is a nibble. *)
Theorem parsePatchDump_params_entries (data : list Z) (r : PatchRecord) :
  parsePatchDump data = Some r ->
  dom (params r) = list_to_set PATCH_PARAM_MAP.*2
  /\ size (params r) = length PATCH_PARAM_MAP
  /\ forall off key, (off, key) ∈ PATCH_PARAM_MAP ->
       exists hi lo,
         data !! (nibbleStart data + 2 * off)%nat = Some hi
         /\ data !! (nibbleStart data + (2 * off + 1))%nat = Some lo
         /\ params r !! key = Some (JNum (js_or (js_shl hi 4) lo))
         /\ (0 <= hi < 8 -> 0 <= lo < 16 ->
             0 <= js_or (js_shl hi 4) lo <= 127).
Proof.
  intros Hr. pose proof (parsePatchDump_Some_inv data r Hr) as Hlen.
  destruct (parsePatchDump_Some data Hlen) as (r' & Hr' & _ & _ & Hparams).
  assert (r' = r) as -> by congruence. clear Hr'.
  assert (Hdom : dom (params r) = list_to_set PATCH_PARAM_MAP.*2).
  { rewrite Hparams, mapParams_dom, dom_empty_L. apply (right_id_L ∅ (∪)). }
  split; [exact Hdom |]. split.
  - rewrite <- size_dom, Hdom.
    rewrite size_list_to_set by exact PATCH_PARAM_MAP_keys_NoDup.
    apply length_fmap.
  - intros off key Hin.
    pose proof (PATCH_PARAM_MAP_offset off key Hin) as Hoff.
    set (start := nibbleStart data) in *.
    set (payload := take 142 (drop start data)) in *.
    assert (Hpay : forall j : nat, (j < 142)%nat ->
              payload !! j = data !! (start + j)%nat).
    { intros j Hj. subst payload.
      rewrite lookup_take_lt by exact Hj. apply lookup_drop. }
    rewrite length_drop in Hlen.
    destruct (lookup_lt_is_Some_2 data (start + 2 * off)%nat) as [hi Hhi];
      [lia |].
    destruct (lookup_lt_is_Some_2 data (start + (2 * off + 1))%nat)
      as [lo Hlo]; [lia |].
    exists hi, lo. split; [exact Hhi |]. split; [exact Hlo |]. split.
    + rewrite Hparams.
      rewrite (mapParams_lookup _ _ _ off key PATCH_PARAM_MAP_keys_NoDup Hin).
      unfold js_get.
      rewrite (decodeNibbles_lookup payload off hi lo); [reflexivity | |].
      * rewrite Hpay by lia. exact Hhi.
      * rewrite Hpay by lia. exact Hlo.
    + intros Hhi8 Hlo16. rewrite js_or_shl_nibbles by lia. lia.
Qed.

Lemma parsePatchDump_params_entries_witness :
  exists r,
    parsePatchDump ([0xf0; 0x00; 0x01; 0x0c; 0x01; 0x01; 0x01; 0x00]
                    ++ replicate 142 0x06 ++ [0xf7]) = Some r
    /\ size (params r) = 42%nat
    /\ params r !! "drive"%string = Some (JNum 0x66).
Proof.
  set (data := [0xf0; 0x00; 0x01; 0x0c; 0x01; 0x01; 0x01; 0x00]
               ++ replicate 142 0x06 ++ [0xf7]).
  destruct (parsePatchDump data) as [r |] eqn:Hr;
    [| vm_compute in Hr; discriminate].
  exists r. split; [reflexivity |].
  destruct (parsePatchDump_params_entries data r Hr) as (_ & Hsize & Hentries).
  split; [exact Hsize |].
  destruct (Hentries 9%nat "drive"%string) as (hi & lo & Hhi & Hlo & Hval & _).
  { apply (bool_decide_unpack _). vm_compute. exact I. }
  vm_compute in Hhi, Hlo. simplify_eq. exact Hval.
Defined.

(** C8, as stated, fails: a frame whose payload elements are all [0x0F]
    (valid 7-bit SysEx data) parses, and its parameter [drive] is 255. *)
Lemma parsePatchDump_param_above_127 :
  exists r,
    parsePatchDump ([0xf0; 0x00; 0x01; 0x0c; 0x01; 0x01; 0x01; 0x00]
                    ++ replicate 142 0x0F ++ [0xf7]) = Some r
    /\ params r !! "drive"%string = Some (JNum 255)
    /\ ~ (0 <= 255 <= 127).
Proof.
  eexists. split; [vm_compute; reflexivity |].
  split; [vm_compute; reflexivity | lia].
Qed.

(** C1, as the code has it. For a name of 16 code units and 55 parameter
    bytes, parsing the dump that [buildPatchDump] builds gives: for an
    edit-buffer frame, [isEditBuffer = true], [presetNumber = null] and,
    under every key of the offset table, the parameter byte at its offset;
    for a stored-preset frame with program number 42,
    [presetNumber = 42] and [isEditBuffer = false]. The name comes back with
    white space cut at both ends (and every code unit reduced to its low
    eight bits): it is the exact name when the characters are below 256 and
    the name neither begins nor ends with white space. *)
Theorem parsePatchDump_buildPatchDump (nm : jsstring) (pb : list Z) (pn : Z) :
  length nm = 16%nat ->
  length pb = 55%nat ->
  Forall (fun b => 0 <= b < 256) pb ->
  (exists r,
     parsePatchDump (buildPatchDump true pn (Some pb) nm) = Some r
     /\ isEditBuffer r = true
     /\ presetNumber r = JNull
     /\ name r = trim (map (fun c => c mod 256) nm)
     /\ (Forall (fun c => 0 <= c < 256) nm -> name r = trim nm)
     /\ (Forall (fun c => 0 <= c < 256) nm -> cleanHead nm -> cleanLast nm ->
         name r = nm)
     /\ forall off key, (off, key) ∈ PATCH_PARAM_MAP ->
          exists b, pb !! off = Some b /\ params r !! key = Some (JNum b))
  /\ (exists r,
        parsePatchDump (buildPatchDump false 42 (Some pb) nm) = Some r
        /\ isEditBuffer r = false
        /\ presetNumber r = JNum 42
        /\ name r = trim (map (fun c => c mod 256) nm)
        /\ forall off key, (off, key) ∈ PATCH_PARAM_MAP ->
             exists b, pb !! off = Some b /\ params r !! key = Some (JNum b)).
Proof.
  intros Hnm Hpb Hbytes. split.
  - eexists. split; [now apply parse_built_dump_eq |].
    cbn [isEditBuffer presetNumber name params].
    repeat split.
    + intros Hchars. now rewrite map_mod256_bytes.
    + intros Hchars Hh Hl. rewrite map_mod256_bytes by exact Hchars.
      now apply trim_id.
    + intros off key Hin. now apply built_params_lookup.
  - eexists. split; [now apply parse_built_dump_eq |].
    cbn [isEditBuffer presetNumber name params].
    repeat split.
    intros off key Hin. now apply built_params_lookup.
Qed.

Lemma parsePatchDump_buildPatchDump_witness :
  (exists r,
     parsePatchDump
       (buildPatchDump true 0 (Some (seqZ 0 55)) (of_string "My Cool Patch   "))
     = Some r
     /\ isEditBuffer r = true
     /\ presetNumber r = JNull
     /\ name r = of_string "My Cool Patch")
  /\ (exists r,
        parsePatchDump
          (buildPatchDump false 42 (Some (seqZ 0 55))
                          (of_string "My Cool Patch   "))
        = Some r
        /\ isEditBuffer r = false
        /\ presetNumber r = JNum 42).
Proof.
  destruct (parsePatchDump_buildPatchDump
              (of_string "My Cool Patch   ") (seqZ 0 55) 0)
    as [(r & Hr & He & Hp & Hn & _) (r' & Hr' & He' & Hp' & _)].
  - reflexivity.
  - reflexivity.
  - apply (bool_decide_unpack _). vm_compute. exact I.
  - split.
    + exists r. repeat split; assumption.
    + exists r'. repeat split; assumption.
Defined.

(** C1, as stated, fails on the name: the 16-character name
    ["Test Patch      "], the default of the test helper, comes back as
    ["Test Patch"]. *)
Lemma built_dump_name_comes_back_trimmed :
  length (of_string "Test Patch      ") = 16%nat
  /\ name <$> parsePatchDump
                (buildPatchDump true 0 (Some (replicate 55 0))
                                (of_string "Test Patch      "))
     = Some (of_string "Test Patch")
  /\ of_string "Test Patch" <> of_string "Test Patch      ".
Proof.
  split; [reflexivity |]. split; [vm_compute; reflexivity | discriminate].
Qed.

(** ** The Control Change interpreter *)

(** C9. No two descriptors of [MIDI_CC_MAP] share a controller number. *)
Theorem MIDI_CC_MAP_cc_unique (key1 key2 : string) (def1 def2 : CCDef.t) :
  (key1, def1) ∈ MIDI_CC_MAP ->
  (key2, def2) ∈ MIDI_CC_MAP ->
  key1 <> key2 ->
  CCDef.cc def1 <> CCDef.cc def2.
Proof.
  intros Hin1 Hin2 Hkeys Hcc.
  apply list_elem_of_lookup in Hin1 as [i Hi].
  apply list_elem_of_lookup in Hin2 as [j Hj].
  assert (Hij : i = j).
  { apply (NoDup_lookup _ i j (CCDef.cc def1) MIDI_CC_MAP_cc_NoDup).
    - now rewrite list_lookup_fmap, Hi.
    - now rewrite Hcc, list_lookup_fmap, Hj. }
  subst j. congruence.
Qed.

Lemma MIDI_CC_MAP_cc_unique_witness :
  CCDef.cc (CCDef.mk 51 "Effect Speed" 0 127)
  <> CCDef.cc (CCDef.mk 52 "Effect Depth" 0 127).
Proof.
  apply (MIDI_CC_MAP_cc_unique "effect_speed" "effect_depth").
  - apply (bool_decide_unpack _). vm_compute. exact I.
  - apply (bool_decide_unpack _). vm_compute. exact I.
  - discriminate.
Defined.

(** C5. For a Control Change message whose controller number is that of a
    descriptor of [MIDI_CC_MAP], the handler stores under the key of the
    descriptor: 1 when the descriptor has [max = 1] and the value is at
    least 64, 0 when it has [max = 1] and the value is below 64, and the raw
    value otherwise. *)
Theorem handleMidiMessage_toggle_threshold
    (status val : Z) (key : string) (def : CCDef.t)
    (prev : gmap string jsval) :
  js_and status 0xf0 = 0xb0 ->
  (key, def) ∈ MIDI_CC_MAP ->
  (CCDef.max def = 1 -> 64 <= val ->
   handleMidiMessage [status; CCDef.cc def; val] prev
   = <[key := JNum 1]> prev)
  /\ (CCDef.max def = 1 -> val < 64 ->
      handleMidiMessage [status; CCDef.cc def; val] prev
      = <[key := JNum 0]> prev)
  /\ (CCDef.max def <> 1 ->
      handleMidiMessage [status; CCDef.cc def; val] prev
      = <[key := JNum val]> prev).
Proof.
  intros Hst Hin.
  rewrite (handleMidiMessage_descriptor status val key def prev Hst Hin).
  unfold adjustedVal. repeat split.
  - intros Hmax Hval.
    now rewrite (bool_decide_eq_true_2 _ Hmax), (bool_decide_eq_true_2 _ Hval).
  - intros Hmax Hval. rewrite (bool_decide_eq_true_2 _ Hmax).
    rewrite bool_decide_eq_false_2 by lia. reflexivity.
  - intros Hmax. now rewrite (bool_decide_eq_false_2 _ Hmax).
Qed.

Lemma handleMidiMessage_toggle_threshold_witness :
  handleMidiMessage [0xb0; 25; 127] ∅ = {[ "dist_enable"%string := JNum 1 ]}
  /\ handleMidiMessage [0xb0; 25; 64] ∅ = {[ "dist_enable"%string := JNum 1 ]}
  /\ handleMidiMessage [0xb0; 25; 63] ∅ = {[ "dist_enable"%string := JNum 0 ]}
  /\ handleMidiMessage [0xb0; 25; 0] ∅ = {[ "dist_enable"%string := JNum 0 ]}
  /\ handleMidiMessage [0xb0; 13; 100] ∅ = {[ "drive"%string := JNum 100 ]}.
Proof.
  assert (Hdist : ("dist_enable"%string, CCDef.mk 25 "Dist Enable" 0 1)
                  ∈ MIDI_CC_MAP)
    by (apply (bool_decide_unpack _); vm_compute; exact I).
  assert (Hdrive : ("drive"%string, CCDef.mk 13 "Drive" 0 127) ∈ MIDI_CC_MAP)
    by (apply (bool_decide_unpack _); vm_compute; exact I).
  split; [| split; [| split; [| split]]].
  - apply (proj1 (handleMidiMessage_toggle_threshold
                    0xb0 127 _ _ ∅ eq_refl Hdist)); [reflexivity | lia].
  - apply (proj1 (handleMidiMessage_toggle_threshold
                    0xb0 64 _ _ ∅ eq_refl Hdist)); [reflexivity | lia].
  - apply (proj1 (proj2 (handleMidiMessage_toggle_threshold
                           0xb0 63 _ _ ∅ eq_refl Hdist)));
      [reflexivity | lia].
  - apply (proj1 (proj2 (handleMidiMessage_toggle_threshold
                           0xb0 0 _ _ ∅ eq_refl Hdist))); [reflexivity | lia].
  - apply (proj2 (proj2 (handleMidiMessage_toggle_threshold
                           0xb0 100 _ _ ∅ eq_refl Hdrive))). discriminate.
Defined.

(** The boundary values hold for every descriptor with [max = 1]. *)
Lemma handleMidiMessage_toggles (key : string) (def : CCDef.t)
    (prev : gmap string jsval) :
  (key, def) ∈ MIDI_CC_MAP ->
  CCDef.max def = 1 ->
  handleMidiMessage [0xb0; CCDef.cc def; 127] prev !! key = Some (JNum 1)
  /\ handleMidiMessage [0xb0; CCDef.cc def; 0] prev !! key = Some (JNum 0)
  /\ handleMidiMessage [0xb0; CCDef.cc def; 63] prev !! key = Some (JNum 0)
  /\ handleMidiMessage [0xb0; CCDef.cc def; 64] prev !! key = Some (JNum 1).
Proof.
  intros Hin Hmax.
  assert (Hst : js_and 0xb0 0xf0 = 0xb0) by reflexivity.
  rewrite (handleMidiMessage_descriptor 0xb0 127 key def prev Hst Hin).
  rewrite (handleMidiMessage_descriptor 0xb0 0 key def prev Hst Hin).
  rewrite (handleMidiMessage_descriptor 0xb0 63 key def prev Hst Hin).
  rewrite (handleMidiMessage_descriptor 0xb0 64 key def prev Hst Hin).
  unfold adjustedVal. rewrite (bool_decide_eq_true_2 _ Hmax).
  repeat split; apply lookup_insert_eq.
Qed.

(** C6, on the code. The Control Change block looks the controller number
    up in the static table [MIDI_CC_MAP] and nowhere else, and never reads
    the parameter state, so the selected effect type plays no part: a
    controller number without a descriptor leaves the parameters as they
    are, and a controller number with a descriptor is stored under the key
    of that descriptor. The controllers 55, 56, 58, 59, 42 and 49 of the
    effect categories have no descriptor; with the rotary effect type
    (index 2) selected, controller 55 is dropped and [effect_speed] is not
    set. *)
Theorem handleMidiMessage_static_scan_only
    (status cc val : Z) (tail : list Z) (prev : gmap string jsval) :
  js_and status 0xf0 = 0xb0 ->
  (cc ∉ ccOf <$> MIDI_CC_MAP ->
   handleMidiMessage (status :: cc :: val :: tail) prev = prev)
  /\ (forall key def, (key, def) ∈ MIDI_CC_MAP -> CCDef.cc def = cc ->
        handleMidiMessage (status :: cc :: val :: tail) prev
        = <[key := JNum (if bool_decide (CCDef.max def = 1)
                         then (if bool_decide (64 <= val) then 1 else 0)
                         else val)]> prev)
  /\ Forall (fun c => c ∉ ccOf <$> MIDI_CC_MAP) [55; 56; 58; 59; 42; 49]
  /\ handleMidiMessage (status :: 55 :: val :: tail)
                       (<["effect"%string := JNum 2]> prev)
     = <["effect"%string := JNum 2]> prev.
Proof.
  intros Hst.
  assert (Hdyn : Forall (fun c => c ∉ ccOf <$> MIDI_CC_MAP)
                        [55; 56; 58; 59; 42; 49])
    by (apply (bool_decide_unpack _); vm_compute; exact I).
  rewrite !(handleMidiMessage_cc status _ val tail _ Hst).
  split; [| split; [| split; [exact Hdyn |]]].
  - intros Hcc. now rewrite scanCCMap_absent.
  - intros key def Hin <-.
    now rewrite (scanCCMap_found MIDI_CC_MAP key def val
                   MIDI_CC_MAP_cc_NoDup Hin).
  - rewrite scanCCMap_absent; [reflexivity |].
    apply (proj1 (Forall_forall _ _) Hdyn 55). left.
Qed.

Lemma handleMidiMessage_static_scan_only_witness :
  handleMidiMessage [0xb0; 55; 100] {[ "effect"%string := JNum 2 ]}
  = {[ "effect"%string := JNum 2 ]}
  /\ handleMidiMessage [0xb0; 57; 100] {[ "effect"%string := JNum 1 ]}
     = {[ "effect"%string := JNum 1 ]}
  /\ handleMidiMessage [0xb0; 51; 100] {[ "effect"%string := JNum 2 ]}
     = <["effect_speed"%string := JNum 100]> {[ "effect"%string := JNum 2 ]}.
Proof.
  split; [| split].
  - apply (proj1 (handleMidiMessage_static_scan_only
                    0xb0 55 100 [] {[ "effect"%string := JNum 2 ]} eq_refl)).
    apply (bool_decide_unpack _). vm_compute. exact I.
  - apply (proj1 (handleMidiMessage_static_scan_only
                    0xb0 57 100 [] {[ "effect"%string := JNum 1 ]} eq_refl)).
    apply (bool_decide_unpack _). vm_compute. exact I.
  - apply (proj1 (proj2 (handleMidiMessage_static_scan_only
                           0xb0 51 100 [] {[ "effect"%string := JNum 2 ]}
                           eq_refl))
             "effect_speed"%string (CCDef.mk 51 "Effect Speed" 0 127)).
    + apply (bool_decide_unpack _). vm_compute. exact I.
    + reflexivity.
Defined.

(** The input on which the code and C6 part: with the rotary effect type
    (index 2) selected, an incoming controller 55 with value 100 is not
    stored as [effect_speed]; the parameters stay as they were. *)
Lemma handleMidiMessage_rotary_cc55_ignored :
  handleMidiMessage [0xb0; 55; 100] {[ "effect"%string := JNum 2 ]}
    !! "effect_speed"%string = None
  /\ handleMidiMessage [0xb0; 55; 100] {[ "effect"%string := JNum 2 ]}
       !! "effect_speed"%string <> Some (JNum 100).
Proof. split; [vm_compute; reflexivity | vm_compute; discriminate]. Qed.

(** ** The effect category resolver *)

(** C7. [getEffectCC] resolves the category of the effect-type index and
    returns the controller number of the logical sub-parameter in that
    category, or [null] when the category does not define it or is bypass
    or delay_only; the lookup has a category for exactly the 16 indices
    0..15. The controller numbers of the flanger category are arbitrary. *)
Theorem getEffectCC_resolves_category (flangerCCs : list (string * Z)) :
  getEffectCC flangerCCs "effect_speed" 2 = Some 55
  /\ getEffectCC flangerCCs "effect_depth" 7 = None
  /\ getEffectCC flangerCCs "effect_speed" 10 = None
  /\ (forall logicalParam effectTypeIndex category,
        EFFECT_CATEGORIES effectTypeIndex = Some category ->
        getEffectCC flangerCCs logicalParam effectTypeIndex
        = assoc logicalParam (EFFECT_CATEGORY_CCS flangerCCs category))
  /\ (forall logicalParam effectTypeIndex,
        EFFECT_CATEGORIES effectTypeIndex = Some bypass
        \/ EFFECT_CATEGORIES effectTypeIndex = Some delay_only ->
        getEffectCC flangerCCs logicalParam effectTypeIndex = None)
  /\ (forall effectTypeIndex,
        is_Some (EFFECT_CATEGORIES effectTypeIndex)
        <-> 0 <= effectTypeIndex <= 15).
Proof.
  split; [reflexivity |]. split; [reflexivity |]. split; [reflexivity |].
  split; [| split].
  - intros p i c Hc. unfold getEffectCC. now rewrite Hc.
  - intros p i [Hc | Hc]; unfold getEffectCC; now rewrite Hc.
  - intros i. split.
    + intros [c Hc]. unfold EFFECT_CATEGORIES in Hc.
      destruct i as [| p | p]; [lia | | discriminate].
      repeat (lia || discriminate || (destruct p as [p | p |]; cbn in Hc)).
    + intros Hi.
      assert (Hcases : i = 0 \/ i = 1 \/ i = 2 \/ i = 3 \/ i = 4 \/ i = 5
                       \/ i = 6 \/ i = 7 \/ i = 8 \/ i = 9 \/ i = 10
                       \/ i = 11 \/ i = 12 \/ i = 13 \/ i = 14 \/ i = 15)
        by lia.
      repeat (destruct Hcases as [-> | Hcases]; [eexists; reflexivity |]).
      subst i. eexists; reflexivity.
Qed.

Lemma getEffectCC_resolves_category_witness :
  getEffectCC [] "effect_depth" 2 = Some 56
  /\ getEffectCC [] "effect_speed" 6 = None.
Proof.
  destruct (getEffectCC_resolves_category []) as (_ & _ & _ & Hcat & Hnone & _).
  split.
  - exact (Hcat "effect_depth"%string 2 rotary eq_refl).
  - apply Hnone. right. reflexivity.
Defined.

(** * Further properties of the editor *)

(** * Further properties *)

(** ** The handler on the state of the editor *)

Section HandlerState.

Lemma storePreset_params parsed st :
  Editor.params (storePreset parsed st) = Editor.params st.
Proof.
  unfold storePreset.
  destruct (_ <=? 124)%nat; destruct (124 <=? _)%nat; reflexivity.
Qed.

(** The handler of the parameter state is the [params] component of the
    handler on the state. *)
Lemma handleMidiMessage_state_params data st :
  Editor.params (handleMidiMessage_state data st)
  = handleMidiMessage data (Editor.params st).
Proof.
  unfold handleMidiMessage_state, handleMidiMessage.
  destruct (js_strict_eq_num (js_get data 0) SYSEX_START); cbn [andb].
  - destruct (js_strict_eq_num (js_get data 1) 0 && _ && _ && _ && _).
    + destruct (parsePatchDump data) as [parsed |].
      * destruct (isEditBuffer parsed);
          repeat case_bool_decide;
          repeat (destruct (scanCCMap _ _ _) as [[? ?] |]);
          cbn -[storePreset]; rewrite ?storePreset_params; reflexivity.
      * repeat case_bool_decide;
          repeat (destruct (scanCCMap _ _ _) as [[? ?] |]); reflexivity.
    + repeat case_bool_decide;
        repeat (destruct (scanCCMap _ _ _) as [[? ?] |]); reflexivity.
  - repeat case_bool_decide;
      repeat (destruct (scanCCMap _ _ _) as [[? ?] |]); reflexivity.
Qed.

(** The six header elements that the patch-dump block asks for. *)
Lemma header_check data :
  js_strict_eq_num (js_get data 0) SYSEX_START
  && (js_strict_eq_num (js_get data 1) 0x00
      && js_strict_eq_num (js_get data 2) 0x01
      && js_strict_eq_num (js_get data 3) 0x0c
      && js_strict_eq_num (js_get data 4) POCKET_POD_DEVICE_ID
      && js_strict_eq_num (js_get data 5) OPCODE_PATCH_DUMP)
  = bool_decide (take 6 data = [0xf0; 0x00; 0x01; 0x0c; 0x01; 0x01]).
Proof.
  unfold SYSEX_START, POCKET_POD_DEVICE_ID, OPCODE_PATCH_DUMP.
  destruct data as [| a [| b [| c [| d [| e [| f rest]]]]]];
    cbn -[bool_decide]; repeat case_bool_decide; simplify_eq;
    try reflexivity; try (cbn; congruence).
Qed.

(** A frame with the header of a patch dump runs the patch-dump block
    only. *)
Lemma handleMidiMessage_state_dump data st :
  take 6 data = [0xf0; 0x00; 0x01; 0x0c; 0x01; 0x01] ->
  handleMidiMessage_state data st
  = match parsePatchDump data with
    | Some parsed =>
        if isEditBuffer parsed
        then setParams (fun prev => params parsed ∪ prev) st
        else storePreset parsed st
    | None => st
    end.
Proof.
  intros Hhead.
  pose proof (header_check data) as Hcheck.
  rewrite (bool_decide_eq_true_2 _ Hhead) in Hcheck.
  apply andb_true_iff in Hcheck as [H0 Hrest].
  unfold handleMidiMessage_state. rewrite H0, Hrest.
  assert (Hst : js_get data 0 = JNum 0xf0).
  { destruct data as [| a rest]; [discriminate |].
    cbn in Hhead. injection Hhead as -> _. reflexivity. }
  rewrite Hst.
  rewrite (bool_decide_eq_false_2 (js_and_val (JNum 240) 240 = 176))
    by (vm_compute; discriminate).
  rewrite (bool_decide_eq_false_2 (js_and_val (JNum 240) 240 = 192))
    by (vm_compute; discriminate).
  reflexivity.
Qed.

(** A message with a Control Change status runs the Control Change block
    only. *)
Lemma handleMidiMessage_state_cc status cc val (tail : list Z) st :
  js_and status 0xf0 = 0xb0 ->
  handleMidiMessage_state (status :: cc :: val :: tail) st
  = match scanCCMap MIDI_CC_MAP (JNum cc) (JNum val) with
    | Some (key, v) => setParams (fun prev => <[key := v]> prev) st
    | None => st
    end.
Proof.
  intros Hst. unfold handleMidiMessage_state.
  change (js_get (status :: cc :: val :: tail) 0) with (JNum status).
  change (js_get (status :: cc :: val :: tail) 1) with (JNum cc).
  change (js_get (status :: cc :: val :: tail) 2) with (JNum val).
  rewrite (cc_status_not_sysex status Hst).
  unfold js_and_val. rewrite (bool_decide_eq_true_2 _ Hst).
  rewrite bool_decide_eq_false_2 by (rewrite Hst; discriminate).
  reflexivity.
Qed.

Lemma scanCCMap_key entries cc val key v :
  scanCCMap entries cc val = Some (key, v) -> key ∈ entries.*1.
Proof.
  induction entries as [| [k d] entries IH]; [discriminate |].
  cbn [scanCCMap]. case_bool_decide.
  - intros [= <- _]. rewrite fmap_cons. left.
  - intros Hscan. rewrite fmap_cons. right. now apply IH.
Qed.

End HandlerState.

(** X1. A message that is neither a patch dump of the device (the six
    header elements F0 00 01 0C 01 01), nor a Control Change, nor a Program
    Change leaves the state [Editor.t] as it is: the parameters, the
    presets, the fetch state and the current preset. (The log entry and the
    time of activity that every message sets are outside [Editor.t].) *)
Theorem handleMidiMessage_state_other_message (data : list Z) (st : Editor.t) :
  take 6 data <> [0xf0; 0x00; 0x01; 0x0c; 0x01; 0x01] ->
  js_and_val (js_get data 0) 0xf0 <> 0xb0 ->
  js_and_val (js_get data 0) 0xf0 <> 0xc0 ->
  handleMidiMessage_state data st = st.
Proof.
  intros Hhead Hcc Hpc.
  pose proof (header_check data) as Hcheck.
  rewrite (bool_decide_eq_false_2 _ Hhead) in Hcheck.
  unfold handleMidiMessage_state.
  rewrite (bool_decide_eq_false_2 _ Hcc), (bool_decide_eq_false_2 _ Hpc).
  destruct (js_strict_eq_num (js_get data 0) SYSEX_START); [| reflexivity].
  cbn [andb] in Hcheck. now rewrite Hcheck.
Qed.

Lemma handleMidiMessage_state_other_message_witness :
  handleMidiMessage_state [0x90; 60; 100]
    (Editor.mk DEFAULT_PARAMS [] false 0 (JNum 0) true false (Some []))
  = Editor.mk DEFAULT_PARAMS [] false 0 (JNum 0) true false (Some [])
  /\ handleMidiMessage_state [0xf0; 0x7e; 0x00; 0x06; 0x02; 0x00; 0x01; 0x0c]
       (Editor.mk DEFAULT_PARAMS [] false 0 (JNum 0) true false (Some []))
     = Editor.mk DEFAULT_PARAMS [] false 0 (JNum 0) true false (Some []).
Proof.
  split.
  - apply handleMidiMessage_state_other_message;
      [discriminate | vm_compute; discriminate | vm_compute; discriminate].
  - apply handleMidiMessage_state_other_message;
      [discriminate | vm_compute; discriminate | vm_compute; discriminate].
Defined.

(** X2. A Control Change message whose controller number has no descriptor
    in [MIDI_CC_MAP] is ignored: the state [Editor.t] stays as it is. *)
Theorem handleMidiMessage_state_unknown_cc
    (status cc val : Z) (tail : list Z) (st : Editor.t) :
  js_and status 0xf0 = 0xb0 ->
  cc ∉ ccOf <$> MIDI_CC_MAP ->
  handleMidiMessage_state (status :: cc :: val :: tail) st = st.
Proof.
  intros Hst Hcc. rewrite handleMidiMessage_state_cc by exact Hst.
  now rewrite scanCCMap_absent.
Qed.

Lemma handleMidiMessage_state_unknown_cc_witness :
  handleMidiMessage_state [0xb3; 99; 5]
    (Editor.mk DEFAULT_PARAMS [] false 0 (JNum 0) true false (Some []))
  = Editor.mk DEFAULT_PARAMS [] false 0 (JNum 0) true false (Some []).
Proof.
  apply handleMidiMessage_state_unknown_cc; [reflexivity |].
  apply (bool_decide_unpack _). vm_compute. exact I.
Defined.

(** X3. A patch dump that is too short for its 142 payload elements is
    dropped: the state [Editor.t] stays as it is. *)
Theorem handleMidiMessage_state_short_dump (data : list Z) (st : Editor.t) :
  take 6 data = [0xf0; 0x00; 0x01; 0x0c; 0x01; 0x01] ->
  (length data < nibbleStart data + 142)%nat ->
  handleMidiMessage_state data st = st.
Proof.
  intros Hhead Hshort. rewrite handleMidiMessage_state_dump by exact Hhead.
  rewrite parsePatchDump_None; [reflexivity |]. rewrite length_drop. lia.
Qed.

Lemma handleMidiMessage_state_short_dump_witness :
  handleMidiMessage_state
    [0xf0; 0x00; 0x01; 0x0c; 0x01; 0x01; 0x01; 0x00; 0xf7]
    (Editor.mk DEFAULT_PARAMS [] true 3 (JNum 0) true false (Some []))
  = Editor.mk DEFAULT_PARAMS [] true 3 (JNum 0) true false (Some []).
Proof.
  apply handleMidiMessage_state_short_dump; [reflexivity | vm_compute; lia].
Defined.

(** ** The shape of the parameter state *)

Section ParamKeys.

Lemma parsePatchDump_dom data r :
  parsePatchDump data = Some r ->
  dom (params r) = list_to_set PATCH_PARAM_MAP.*2.
Proof.
  intros Hr. pose proof (parsePatchDump_Some_inv data r Hr) as Hlen.
  destruct (parsePatchDump_Some data Hlen) as (r' & Hr' & _ & _ & Hparams).
  assert (r' = r) as -> by congruence.
  rewrite Hparams, mapParams_dom, dom_empty_L. apply (right_id_L ∅ (∪)).
Qed.

Lemma PATCH_PARAM_MAP_names_known :
  (list_to_set PATCH_PARAM_MAP.*2 : gset string)
  ⊆ list_to_set MIDI_CC_MAP.*1.
Proof. apply (bool_decide_unpack _). vm_compute. exact I. Qed.

Lemma DEFAULT_PARAMS_dom :
  dom DEFAULT_PARAMS = list_to_set MIDI_CC_MAP.*1.
Proof. apply (bool_decide_unpack _). vm_compute. exact I. Qed.

(** The two steps of the handler of the parameter state. *)
Lemma handleMidiMessage_cases data (prev : gmap string jsval) :
  exists after,
    (after = prev
     \/ exists parsed, parsePatchDump data = Some parsed
                       /\ after = params parsed ∪ prev)
    /\ (handleMidiMessage data prev = after
        \/ exists key v,
             scanCCMap MIDI_CC_MAP (js_get data 1) (js_get data 2)
             = Some (key, v)
             /\ handleMidiMessage data prev = <[key := v]> after).
Proof.
  unfold handleMidiMessage.
  destruct (_ && _).
  - destruct (parsePatchDump data) as [parsed |] eqn:Hparsed.
    + destruct (isEditBuffer parsed).
      * exists (params parsed ∪ prev). split; [right; eauto |].
        case_bool_decide; [| now left].
        destruct (scanCCMap _ _ _) as [[key v] |]; [right; eauto | now left].
      * exists prev. split; [now left |].
        case_bool_decide; [| now left].
        destruct (scanCCMap _ _ _) as [[key v] |]; [right; eauto | now left].
    + exists prev. split; [now left |].
      case_bool_decide; [| now left].
      destruct (scanCCMap _ _ _) as [[key v] |]; [right; eauto | now left].
  - exists prev. split; [now left |].
    case_bool_decide; [| now left].
    destruct (scanCCMap _ _ _) as [[key v] |]; [right; eauto | now left].
Qed.

Lemma handleMidiMessage_dom data (prev : gmap string jsval) :
  list_to_set MIDI_CC_MAP.*1 ⊆ dom prev ->
  dom (handleMidiMessage data prev) = dom prev.
Proof.
  intros Hkeys.
  destruct (handleMidiMessage_cases data prev) as (after & Hafter & Hres).
  assert (Hdom : dom after = dom prev).
  { destruct Hafter as [-> | (parsed & Hparsed & ->)]; [reflexivity |].
    rewrite dom_union_L, (parsePatchDump_dom data parsed Hparsed).
    apply subseteq_union_1_L.
    etransitivity; [apply PATCH_PARAM_MAP_names_known | exact Hkeys]. }
  destruct Hres as [-> | (key & v & Hscan & ->)]; [exact Hdom |].
  rewrite dom_insert_L, Hdom. apply subseteq_union_1_L.
  apply singleton_subseteq_l. apply Hkeys.
  apply elem_of_list_to_set. exact (scanCCMap_key _ _ _ _ _ Hscan).
Qed.

End ParamKeys.

(** X4. Incoming messages keep the shape of the parameter state: when it
    has a value for every parameter of [MIDI_CC_MAP], as the initial state
    [DEFAULT_PARAMS] has, no message adds or removes a key. *)
Theorem handleMidiMessage_state_keeps_keys (data : list Z) (st : Editor.t) :
  list_to_set MIDI_CC_MAP.*1 ⊆ dom (Editor.params st) ->
  dom (Editor.params (handleMidiMessage_state data st))
  = dom (Editor.params st).
Proof.
  intros Hkeys. rewrite handleMidiMessage_state_params.
  now apply handleMidiMessage_dom.
Qed.

Lemma handleMidiMessage_state_keeps_keys_witness :
  dom (Editor.params
         (handleMidiMessage_state [0xb0; 12; 31]
            (Editor.mk DEFAULT_PARAMS [] false 0 (JNum 0) true false None)))
  = dom DEFAULT_PARAMS.
Proof.
  apply (handleMidiMessage_state_keeps_keys [0xb0; 12; 31]
           (Editor.mk DEFAULT_PARAMS [] false 0 (JNum 0) true false None)).
  cbn [Editor.params]. now rewrite DEFAULT_PARAMS_dom.
Defined.

(** ** Patch dumps through the handler *)

Section DumpThroughHandler.

(** The value that a successful parse stores under a key of the table, in
    terms of the elements of the frame. *)
Lemma parsed_param_at data r off key :
  parsePatchDump data = Some r ->
  (off, key) ∈ PATCH_PARAM_MAP ->
  exists hi lo,
    data !! (nibbleStart data + 2 * off)%nat = Some hi
    /\ data !! (nibbleStart data + (2 * off + 1))%nat = Some lo
    /\ params r !! key = Some (JNum (js_or (js_shl hi 4) lo)).
Proof.
  intros Hr Hin. pose proof (parsePatchDump_Some_inv data r Hr) as Hlen.
  destruct (parsePatchDump_Some data Hlen) as (r' & Hr' & _ & _ & Hparams).
  assert (r' = r) as -> by congruence. clear Hr'.
  pose proof (PATCH_PARAM_MAP_offset off key Hin) as Hoff.
  set (start := nibbleStart data) in *.
  set (payload := take 142 (drop start data)) in *.
  assert (Hpay : forall j : nat, (j < 142)%nat ->
            payload !! j = data !! (start + j)%nat).
  { intros j Hj. subst payload.
    rewrite lookup_take_lt by exact Hj. apply lookup_drop. }
  rewrite length_drop in Hlen.
  destruct (lookup_lt_is_Some_2 data (start + 2 * off)%nat) as [hi Hhi];
    [lia |].
  destruct (lookup_lt_is_Some_2 data (start + (2 * off + 1))%nat)
    as [lo Hlo]; [lia |].
  exists hi, lo. split; [exact Hhi |]. split; [exact Hlo |].
  rewrite Hparams.
  rewrite (mapParams_lookup _ _ _ off key PATCH_PARAM_MAP_keys_NoDup Hin).
  unfold js_get.
  rewrite (decodeNibbles_lookup payload off hi lo); [reflexivity | |].
  - rewrite Hpay by lia. exact Hhi.
  - rewrite Hpay by lia. exact Hlo.
Qed.

Lemma parsed_param_absent data r key :
  parsePatchDump data = Some r ->
  key ∉ PATCH_PARAM_MAP.*2 ->
  params r !! key = None.
Proof.
  intros Hr Hkey. apply not_elem_of_dom.
  rewrite (parsePatchDump_dom data r Hr). now rewrite elem_of_list_to_set.
Qed.

End DumpThroughHandler.



(** ** Sorting the presets *)

Section SortPresets.

Lemma numbered_numberOf p : numbered p -> Preset.number p = JNum (numberOf p).
Proof. intros [n Hn]. unfold numberOf. now rewrite Hn. Qed.

Lemma compareNumber_numbered p q :
  numbered p -> numbered q -> compareNumber p q = numberOf p - numberOf q.
Proof.
  intros Hp Hq. unfold compareNumber.
  now rewrite (numbered_numberOf p Hp), (numbered_numberOf q Hq).
Qed.

Lemma insertPreset_Permutation p l : insertPreset p l ≡ₚ p :: l.
Proof.
  induction l as [| q l IH]; [reflexivity |].
  cbn [insertPreset]. destruct (compareNumber p q <=? 0); [reflexivity |].
  rewrite IH. apply Permutation_swap.
Qed.

Lemma sortPresets_Permutation l : sortPresets l ≡ₚ l.
Proof.
  induction l as [| p l IH]; [reflexivity |].
  cbn [sortPresets foldr]. fold (sortPresets l).
  now rewrite insertPreset_Permutation, IH.
Qed.

Lemma sortPresets_length l : length (sortPresets l) = length l.
Proof. apply Permutation_length, sortPresets_Permutation. Qed.

Lemma insertPreset_HdRel q p l :
  numberOf q <= numberOf p ->
  HdRel (fun a b => numberOf a <= numberOf b) q l ->
  HdRel (fun a b => numberOf a <= numberOf b) q (insertPreset p l).
Proof.
  intros Hqp Hhd. destruct l as [| r l]; cbn [insertPreset].
  - now constructor.
  - destruct (compareNumber p r <=? 0); constructor; [exact Hqp |].
    now inversion Hhd.
Qed.

Lemma insertPreset_Sorted p l :
  numbered p -> Forall numbered l ->
  Sorted (fun a b => numberOf a <= numberOf b) l ->
  Sorted (fun a b => numberOf a <= numberOf b) (insertPreset p l).
Proof.
  intros Hp Hl Hsorted. induction Hsorted as [| q l Hsl IH Hhd].
  - cbn. repeat constructor.
  - apply Forall_cons in Hl as [Hq Hl]. cbn [insertPreset].
    rewrite (compareNumber_numbered p q Hp Hq).
    destruct (Z.leb_spec (numberOf p - numberOf q) 0) as [Hle | Hgt].
    + constructor; [now constructor |]. constructor. lia.
    + constructor; [now apply IH |].
      apply insertPreset_HdRel; [lia | exact Hhd].
Qed.

Lemma sortPresets_Sorted l :
  Forall numbered l ->
  Sorted (fun a b => numberOf a <= numberOf b) (sortPresets l).
Proof.
  induction 1 as [| p l Hp Hl IH]; [constructor |].
  cbn [sortPresets foldr]. fold (sortPresets l).
  apply insertPreset_Sorted; [exact Hp | | exact IH].
  now rewrite sortPresets_Permutation.
Qed.

(** Sorted without a repeated number is strictly increasing. *)
Lemma Sorted_le_NoDup_lt l :
  Sorted (fun a b => numberOf a <= numberOf b) l ->
  NoDup (numberOf <$> l) ->
  StronglySorted (fun a b => numberOf a < numberOf b) l.
Proof.
  intros Hsorted Hnd.
  assert (Htrans : Transitive (fun a b : Preset.t => numberOf a <= numberOf b))
    by (intros a b c; lia).
  apply Sorted_StronglySorted in Hsorted; [| exact Htrans].
  induction Hsorted as [| p l Hss IH Hall]; [constructor |].
  rewrite fmap_cons in Hnd. apply NoDup_cons in Hnd as [Hfresh Hnd].
  constructor; [now apply IH |].
  rewrite Forall_forall in Hall |- *. intros q Hq.
  specialize (Hall q Hq).
  assert (numberOf p <> numberOf q); [| lia].
  intros Heq. apply Hfresh. rewrite Heq.
  now apply list_elem_of_fmap_2.
Qed.

Lemma fmap_number_numberOf (l : list Preset.t) (ns : list Z) :
  Preset.number <$> l = JNum <$> ns -> numberOf <$> l = ns.
Proof.
  revert ns. induction l as [| q l IH]; intros [| m ns] Hns;
    try discriminate; [reflexivity |].
  cbn in Hns. injection Hns as Hq Hns. cbn.
  unfold numberOf at 1. rewrite Hq. cbn. f_equal. now apply IH.
Qed.

(** [presetsOrdered] in terms of the presets themselves. *)
Lemma presetsOrdered_alt l :
  presetsOrdered l
  <-> Forall numbered l
      /\ StronglySorted (fun a b => numberOf a < numberOf b) l.
Proof.
  split.
  - intros (ns & Hns & Hsorted). revert ns Hns Hsorted.
    induction l as [| p l IH]; intros ns Hns Hsorted.
    + split; constructor.
    + destruct ns as [| n ns]; [discriminate |].
      cbn in Hns. injection Hns as Hp Hns.
      apply StronglySorted_inv in Hsorted as [Hsorted Hall].
      destruct (IH ns Hns Hsorted) as [Hnum Hss].
      pose proof (fmap_number_numberOf l ns Hns) as HnumOf.
      split; [constructor; [now exists n | exact Hnum] |].
      constructor; [exact Hss |].
      rewrite Forall_forall. intros q Hq.
      unfold numberOf at 1. rewrite Hp. cbn.
      rewrite Forall_forall in Hall. apply Hall. rewrite <- HnumOf.
      now apply list_elem_of_fmap_2.
  - intros [Hnum Hss]. exists (numberOf <$> l). split.
    + clear Hss. induction Hnum as [| p l Hp _ IH]; [reflexivity |].
      rewrite !fmap_cons. now rewrite IH, (numbered_numberOf p Hp).
    + now apply (StronglySorted_fmap numberOf
                   (fun a b => numberOf a < numberOf b) Z.lt).
Qed.

Lemma presetsOrdered_NoDup l :
  presetsOrdered l -> NoDup (numberOf <$> l).
Proof.
  intros Hl. apply presetsOrdered_alt in Hl as [_ Hss].
  induction Hss as [| p l Hss IH Hall]; [constructor |].
  rewrite fmap_cons. constructor; [| exact IH].
  intros Hin. apply list_elem_of_fmap in Hin as (q & Heq & Hq).
  rewrite Forall_forall in Hall. specialize (Hall q Hq). lia.
Qed.

(** Two strictly increasing lists of the same presets are the same list. *)
Lemma presetsOrdered_unique l1 l2 :
  presetsOrdered l1 -> presetsOrdered l2 -> l1 ≡ₚ l2 -> l1 = l2.
Proof.
  intros H1 H2 Hperm.
  apply presetsOrdered_alt in H1 as [_ H1].
  apply presetsOrdered_alt in H2 as [_ H2].
  apply (StronglySorted_unique_strong
           (fun a b => numberOf a < numberOf b) l1 l2); try assumption.
  intros x1 x2 _ _ Hlt Hgt. lia.
Qed.

(** The list that the updater of [setPresets] builds. *)
Lemma stored_Permutation_NoDup l new :
  presetsOrdered l -> numbered new ->
  Forall numbered
    (filter (fun p => Preset.number p <> Preset.number new) l ++ [new])
  /\ NoDup (numberOf <$>
            filter (fun p => Preset.number p <> Preset.number new) l ++ [new]).
Proof.
  intros Hl Hnew. pose proof (presetsOrdered_NoDup l Hl) as Hnd.
  apply presetsOrdered_alt in Hl as [Hnum _].
  assert (Hf : Forall numbered
            (filter (fun p => Preset.number p <> Preset.number new) l)).
  { rewrite Forall_forall in Hnum |- *. intros p Hp.
    apply list_elem_of_filter in Hp as [_ Hp]. now apply Hnum. }
  split; [apply Forall_app; split; [exact Hf | now repeat constructor] |].
  rewrite fmap_app. apply NoDup_app. repeat split.
  - clear Hf Hnum. induction l as [| q l IH]; [constructor |].
    rewrite fmap_cons in Hnd. apply NoDup_cons in Hnd as [Hfresh Hnd].
    rewrite filter_cons. case_decide; [| now apply IH].
    rewrite fmap_cons. constructor; [| now apply IH].
    intros Hin. apply Hfresh.
    apply list_elem_of_fmap in Hin as (r & Heq & Hr).
    apply list_elem_of_filter in Hr as [_ Hr]. rewrite Heq.
    now apply list_elem_of_fmap_2.
  - intros n Hin Hin'. cbn in Hin'. apply list_elem_of_singleton in Hin'.
    subst n. apply list_elem_of_fmap in Hin as (r & Heq & Hr).
    apply list_elem_of_filter in Hr as [Hne Hr]. apply Hne.
    rewrite Forall_forall in Hnum.
    rewrite (numbered_numberOf r (Hnum r Hr)), (numbered_numberOf new Hnew).
    now rewrite Heq.
  - cbn. apply NoDup_singleton.
Qed.

Lemma stored_presetsOrdered l new :
  presetsOrdered l -> numbered new ->
  presetsOrdered
    (sortPresets
       (filter (fun p => Preset.number p <> Preset.number new) l ++ [new])).
Proof.
  intros Hl Hnew.
  destruct (stored_Permutation_NoDup l new Hl Hnew) as [Hnum Hnd].
  apply presetsOrdered_alt. split.
  - now rewrite sortPresets_Permutation.
  - apply Sorted_le_NoDup_lt; [now apply sortPresets_Sorted |].
    now rewrite sortPresets_Permutation.
Qed.

End SortPresets.

(** ** Stored presets *)

Section StorePreset.

(** A stored-preset dump that parses carries its number at index 7. *)
Lemma parsePatchDump_stored_number data r :
  parsePatchDump data = Some r ->
  isEditBuffer r = false ->
  exists n, data !! 7%nat = Some n /\ presetNumber r = JNum n
            /\ data !! 6%nat <> Some 0x01.
Proof.
  intros Hr Hedit. pose proof (parsePatchDump_Some_inv data r Hr) as Hlen.
  destruct (parsePatchDump_Some data Hlen) as (r' & Hr' & He & Hpn & _).
  assert (r' = r) as -> by congruence. clear Hr'.
  rewrite Hedit in He. symmetry in He. apply bool_decide_eq_false in He.
  rewrite bool_decide_eq_false_2 in Hpn by exact He.
  rewrite length_drop in Hlen. unfold nibbleStart in Hlen.
  rewrite bool_decide_eq_false_2 in Hlen by exact He.
  destruct (lookup_lt_is_Some_2 data 7) as [n Hn]; [lia |].
  exists n. split; [exact Hn |]. split; [| exact He].
  rewrite Hpn. unfold js_get. now rewrite Hn.
Qed.

Lemma parsePatchDump_stored data :
  data !! 6%nat <> Some 0x01 ->
  (151 <= length data)%nat ->
  exists n r, data !! 7%nat = Some n /\ parsePatchDump data = Some r
              /\ isEditBuffer r = false /\ presetNumber r = JNum n.
Proof.
  intros H6 Hlen.
  destruct (parsePatchDump_Some data) as (r & Hr & Hedit & _ & _).
  { unfold nibbleStart. rewrite bool_decide_eq_false_2 by exact H6.
    rewrite length_drop. lia. }
  rewrite bool_decide_eq_false_2 in Hedit by exact H6.
  destruct (parsePatchDump_stored_number data r Hr Hedit) as (n & Hn & Hpn & _).
  exists n, r. auto.
Qed.

(** The fields of the state after [storePreset]. *)
Lemma storePreset_presets parsed st :
  Editor.presets (storePreset parsed st)
  = sortPresets
      (filter (fun p => Preset.number p <> presetNumber parsed)
              (Editor.presets st)
       ++ [Preset.mk (presetNumber parsed) (name parsed) (params parsed)]).
Proof. reflexivity. Qed.

Lemma storePreset_fetchProgress parsed st :
  Editor.fetchProgress (storePreset parsed st)
  = if (length (Editor.presets (storePreset parsed st)) <=? 124)%nat
    then length (Editor.presets (storePreset parsed st))
    else Editor.fetchProgress st.
Proof.
  rewrite storePreset_presets. unfold storePreset.
  destruct (_ <=? 124)%nat; destruct (124 <=? _)%nat; reflexivity.
Qed.

Lemma storePreset_fetchingPresets parsed st :
  Editor.fetchingPresets (storePreset parsed st)
  = if (124 <=? length (Editor.presets (storePreset parsed st)))%nat
    then false else Editor.fetchingPresets st.
Proof.
  rewrite storePreset_presets. unfold storePreset.
  destruct (_ <=? 124)%nat; destruct (124 <=? _)%nat; reflexivity.
Qed.

Lemma storePreset_rest parsed st :
  Editor.currentPreset (storePreset parsed st) = Editor.currentPreset st
  /\ Editor.connected (storePreset parsed st) = Editor.connected st
  /\ Editor.dirty (storePreset parsed st) = Editor.dirty st
  /\ Editor.outputRef (storePreset parsed st) = Editor.outputRef st.
Proof.
  unfold storePreset.
  destruct (_ <=? 124)%nat; destruct (124 <=? _)%nat; auto.
Qed.

(** A state is determined by its fields. *)
Lemma Editor_eq (s t : Editor.t) :
  Editor.params s = Editor.params t ->
  Editor.presets s = Editor.presets t ->
  Editor.fetchingPresets s = Editor.fetchingPresets t ->
  Editor.fetchProgress s = Editor.fetchProgress t ->
  Editor.currentPreset s = Editor.currentPreset t ->
  Editor.connected s = Editor.connected t ->
  Editor.dirty s = Editor.dirty t ->
  Editor.outputRef s = Editor.outputRef t ->
  s = t.
Proof. destruct s, t. cbn. intros. now subst. Qed.

Lemma stored_elem_of l new p :
  p ∈ sortPresets
        (filter (fun q => Preset.number q <> Preset.number new) l ++ [new])
  <-> p = new \/ (p ∈ l /\ Preset.number p <> Preset.number new).
Proof.
  rewrite sortPresets_Permutation, elem_of_app, list_elem_of_filter,
    list_elem_of_singleton.
  tauto.
Qed.

(** With distinct numbers, the filter of the updater drops at most one
    preset. *)
Lemma filter_number_length l (v : jsval) :
  Forall numbered l -> NoDup (numberOf <$> l) ->
  (length l <= S (length (filter (fun p => Preset.number p <> v) l)))%nat.
Proof.
  intros Hnum Hnd. induction Hnum as [| q l Hq Hnum IH]; [cbn; lia |].
  rewrite fmap_cons in Hnd. apply NoDup_cons in Hnd as [Hfresh Hnd].
  rewrite filter_cons. case_decide as Hv.
  - cbn [length]. specialize (IH Hnd). lia.
  - assert (Hall : Forall (fun p => Preset.number p <> v) l).
    { rewrite Forall_forall in Hnum |- *. intros p Hp Hpv.
      apply Hfresh. apply list_elem_of_fmap. exists p. split; [| exact Hp].
      unfold numberOf. now rewrite Hv, Hpv. }
    assert (Hlen : length (filter (fun p => Preset.number p <> v) l) = length l).
    { clear -Hall. induction Hall as [| p l Hp _ IH]; [reflexivity |].
      rewrite filter_cons. rewrite decide_True by exact Hp.
      cbn [length]. now rewrite IH. }
    cbn [length]. lia.
Qed.

Lemma storePreset_fetchConsistent parsed st :
  (exists n, presetNumber parsed = JNum n) ->
  fetchConsistent st -> fetchConsistent (storePreset parsed st).
Proof.
  intros Hn [Hord Hprog].
  set (new := Preset.mk (presetNumber parsed) (name parsed) (params parsed)).
  assert (Hnew : numbered new) by exact Hn.
  split.
  - rewrite storePreset_presets. exact (stored_presetsOrdered _ new Hord Hnew).
  - rewrite storePreset_fetchProgress, storePreset_presets.
    rewrite sortPresets_length, length_app. cbn [length].
    pose proof (presetsOrdered_NoDup _ Hord) as Hnd.
    apply presetsOrdered_alt in Hord as [Hnum _].
    pose proof (filter_number_length _ (presetNumber parsed) Hnum Hnd) as Hlow.
    pose proof (length_filter (fun p => Preset.number p <> presetNumber parsed)
                  (Editor.presets st)) as Hhigh.
    destruct (Nat.leb_spec
                (length (filter (fun p => Preset.number p <> presetNumber parsed)
                                (Editor.presets st)) + 1) 124); lia.
Qed.

Lemma storePreset_idempotent parsed st :
  (exists n, presetNumber parsed = JNum n) ->
  presetsOrdered (Editor.presets st) ->
  storePreset parsed (storePreset parsed st) = storePreset parsed st.
Proof.
  intros Hn Hord.
  set (new := Preset.mk (presetNumber parsed) (name parsed) (params parsed)).
  assert (Hnew : numbered new) by exact Hn.
  assert (Hpresets : Editor.presets (storePreset parsed (storePreset parsed st))
                     = Editor.presets (storePreset parsed st)).
  { rewrite (storePreset_presets parsed (storePreset parsed st)).
    pose proof (stored_presetsOrdered _ new Hord Hnew) as Hord1.
    fold new. change (presetNumber parsed) with (Preset.number new).
    rewrite storePreset_presets. fold new.
    change (presetNumber parsed) with (Preset.number new).
    apply presetsOrdered_unique;
      [now apply stored_presetsOrdered | exact Hord1 |].
    rewrite !sortPresets_Permutation.
    apply Permutation_app_tail.
    rewrite filter_app, list_filter_filter.
    rewrite (filter_cons _ new), decide_False by (intros H; now apply H).
    rewrite filter_nil, app_nil_r.
    erewrite list_filter_iff; [reflexivity |]. intros p. cbn. tauto. }
  destruct (storePreset_rest parsed st) as (Hc & Hk & Hd & Ho).
  destruct (storePreset_rest parsed (storePreset parsed st))
    as (Hc' & Hk' & Hd' & Ho').
  apply Editor_eq; try congruence.
  - now rewrite !storePreset_params.
  - rewrite (storePreset_fetchingPresets parsed (storePreset parsed st)).
    rewrite Hpresets. rewrite (storePreset_fetchingPresets parsed st).
    now destruct (124 <=? _)%nat.
  - rewrite (storePreset_fetchProgress parsed (storePreset parsed st)).
    rewrite Hpresets. rewrite (storePreset_fetchProgress parsed st).
    now destruct (_ <=? 124)%nat.
Qed.

End StorePreset.

Section HandlerCases.

Lemma status_not_sysex data (k : Z) :
  k <> 0xf0 ->
  js_and_val (js_get data 0) 0xf0 = k ->
  js_strict_eq_num (js_get data 0) SYSEX_START = false.
Proof.
  intros Hk Hst. destruct (js_get data 0) as [| | s]; try reflexivity.
  cbn. apply bool_decide_eq_false_2. intros ->. apply Hk. rewrite <- Hst.
  reflexivity.
Qed.

(** A message with a Control Change status, whatever its length. *)
Lemma handleMidiMessage_state_cc_any data st :
  js_and_val (js_get data 0) 0xf0 = 0xb0 ->
  handleMidiMessage_state data st
  = match scanCCMap MIDI_CC_MAP (js_get data 1) (js_get data 2) with
    | Some (key, v) => setParams (fun prev => <[key := v]> prev) st
    | None => st
    end.
Proof.
  intros Hst. unfold handleMidiMessage_state.
  rewrite (status_not_sysex data 0xb0) by (discriminate || exact Hst).
  rewrite (bool_decide_eq_true_2 _ Hst).
  rewrite bool_decide_eq_false_2 by (rewrite Hst; discriminate).
  reflexivity.
Qed.

(** A message with a Program Change status. *)
Lemma handleMidiMessage_state_pc data st :
  js_and_val (js_get data 0) 0xf0 = 0xc0 ->
  handleMidiMessage_state data st = setCurrentPreset (js_get data 1) st.
Proof.
  intros Hst. unfold handleMidiMessage_state.
  rewrite (status_not_sysex data 0xc0) by (discriminate || exact Hst).
  rewrite (bool_decide_eq_false_2 (_ = 0xb0)) by (rewrite Hst; discriminate).
  now rewrite (bool_decide_eq_true_2 _ Hst).
Qed.

(** A message of no handled kind. *)
Lemma handleMidiMessage_state_unhandled data st :
  take 6 data <> [0xf0; 0x00; 0x01; 0x0c; 0x01; 0x01] ->
  js_and_val (js_get data 0) 0xf0 <> 0xb0 ->
  js_and_val (js_get data 0) 0xf0 <> 0xc0 ->
  handleMidiMessage_state data st = st.
Proof.
  intros Hhead Hcc Hpc.
  pose proof (header_check data) as Hcheck.
  rewrite (bool_decide_eq_false_2 _ Hhead) in Hcheck.
  unfold handleMidiMessage_state.
  rewrite (bool_decide_eq_false_2 _ Hcc), (bool_decide_eq_false_2 _ Hpc).
  destruct (js_strict_eq_num (js_get data 0) SYSEX_START); [| reflexivity].
  cbn [andb] in Hcheck. now rewrite Hcheck.
Qed.

(** The four kinds of message. *)
Lemma handleMidiMessage_state_cases data st :
  (take 6 data = [0xf0; 0x00; 0x01; 0x0c; 0x01; 0x01]
   /\ handleMidiMessage_state data st
      = match parsePatchDump data with
        | Some parsed =>
            if isEditBuffer parsed
            then setParams (fun prev => params parsed ∪ prev) st
            else storePreset parsed st
        | None => st
        end)
  \/ (handleMidiMessage_state data st
      = match scanCCMap MIDI_CC_MAP (js_get data 1) (js_get data 2) with
        | Some (key, v) => setParams (fun prev => <[key := v]> prev) st
        | None => st
        end)
  \/ handleMidiMessage_state data st = setCurrentPreset (js_get data 1) st
  \/ handleMidiMessage_state data st = st.
Proof.
  destruct (decide (take 6 data = [0xf0; 0x00; 0x01; 0x0c; 0x01; 0x01]))
    as [Hhead | Hhead].
  { left. split; [exact Hhead | now apply handleMidiMessage_state_dump]. }
  destruct (decide (js_and_val (js_get data 0) 0xf0 = 0xb0)) as [Hcc | Hcc].
  { right. left. now apply handleMidiMessage_state_cc_any. }
  destruct (decide (js_and_val (js_get data 0) 0xf0 = 0xc0)) as [Hpc | Hpc].
  { right. right. left. now apply handleMidiMessage_state_pc. }
  right. right. right. now apply handleMidiMessage_state_unhandled.
Qed.

End HandlerCases.

(** X6. A stored-preset dump of the device (header F0 00 01 0C 01 01, any
    subtype other than 01, at least 151 elements) files the parsed preset
    under the number at index 7: it replaces a preset with that number,
    keeps the presets with other numbers, leaves the parameters alone, and
    the fetch is marked as finished exactly when 124 presets or more are
    then held. *)
Theorem handleMidiMessage_state_stored_dump (data : list Z) (st : Editor.t) :
  take 6 data = [0xf0; 0x00; 0x01; 0x0c; 0x01; 0x01] ->
  data !! 6%nat <> Some 0x01 ->
  (151 <= length data)%nat ->
  exists n r,
    data !! 7%nat = Some n
    /\ parsePatchDump data = Some r
    /\ (forall p,
          p ∈ Editor.presets (handleMidiMessage_state data st)
          <-> p = Preset.mk (JNum n) (name r) (params r)
              \/ (p ∈ Editor.presets st /\ Preset.number p <> JNum n))
    /\ Editor.params (handleMidiMessage_state data st) = Editor.params st
    /\ Editor.fetchingPresets (handleMidiMessage_state data st)
       = (if (124 <=? length (Editor.presets
                               (handleMidiMessage_state data st)))%nat
          then false else Editor.fetchingPresets st).
Proof.
  intros Hhead H6 Hlen.
  destruct (parsePatchDump_stored data H6 Hlen) as (n & r & Hn & Hr & He & Hpn).
  exists n, r. split; [exact Hn |]. split; [exact Hr |].
  rewrite handleMidiMessage_state_dump, Hr, He by exact Hhead.
  split; [| split].
  - intros p. rewrite storePreset_presets, Hpn.
    apply (stored_elem_of (Editor.presets st)
             (Preset.mk (JNum n) (name r) (params r)) p).
  - apply storePreset_params.
  - apply storePreset_fetchingPresets.
Qed.

Lemma handleMidiMessage_state_stored_dump_witness :
  exists r,
    parsePatchDump ([0xf0; 0x00; 0x01; 0x0c; 0x01; 0x01; 0x00; 0x2a; 0x00]
                    ++ replicate 142 0x05 ++ [0xf7]) = Some r
    /\ Preset.mk (JNum 0x2a) (name r) (params r)
       ∈ Editor.presets
           (handleMidiMessage_state
              ([0xf0; 0x00; 0x01; 0x0c; 0x01; 0x01; 0x00; 0x2a; 0x00]
               ++ replicate 142 0x05 ++ [0xf7])
              (Editor.mk DEFAULT_PARAMS [] true 0 (JNum 0) true false None)).
Proof.
  destruct (handleMidiMessage_state_stored_dump
              ([0xf0; 0x00; 0x01; 0x0c; 0x01; 0x01; 0x00; 0x2a; 0x00]
               ++ replicate 142 0x05 ++ [0xf7])
              (Editor.mk DEFAULT_PARAMS [] true 0 (JNum 0) true false None))
    as (n & r & Hn & Hr & Hmem & _);
    [reflexivity | discriminate | vm_compute; lia |].
  vm_compute in Hn. injection Hn as <-.
  exists r. split; [exact Hr |]. apply Hmem. now left.
Defined.

(** X7. Every incoming message keeps the presets in strictly increasing
    order of their numbers, without a repeated number, and keeps the
    progress counter equal to the number of presets held, capped at 124. *)
Theorem handleMidiMessage_state_fetchConsistent
    (data : list Z) (st : Editor.t) :
  fetchConsistent st -> fetchConsistent (handleMidiMessage_state data st).
Proof.
  intros Hst.
  destruct (handleMidiMessage_state_cases data st)
    as [[_ ->] | [-> | [-> | ->]]].
  - destruct (parsePatchDump data) as [parsed |] eqn:Hparsed; [| exact Hst].
    destruct (isEditBuffer parsed) eqn:Hedit; [exact Hst |].
    apply storePreset_fetchConsistent; [| exact Hst].
    destruct (parsePatchDump_stored_number data parsed Hparsed Hedit)
      as (n & _ & Hn & _).
    now exists n.
  - destruct (scanCCMap _ _ _) as [[key v] |]; exact Hst.
  - exact Hst.
  - exact Hst.
Qed.

Lemma handleMidiMessage_state_fetchConsistent_witness :
  fetchConsistent
    (handleMidiMessage_state
       ([0xf0; 0x00; 0x01; 0x0c; 0x01; 0x01; 0x00; 0x2a; 0x00]
        ++ replicate 142 0x05 ++ [0xf7])
       (Editor.mk DEFAULT_PARAMS [] true 0 (JNum 0) true false None)).
Proof.
  apply handleMidiMessage_state_fetchConsistent. split.
  - exists []. split; [reflexivity | constructor].
  - reflexivity.
Defined.

(** X8. Handling the same message twice gives the same state as handling
    it once, when the presets are in strictly increasing order of their
    numbers. *)
Theorem handleMidiMessage_state_idempotent (data : list Z) (st : Editor.t) :
  presetsOrdered (Editor.presets st) ->
  handleMidiMessage_state data (handleMidiMessage_state data st)
  = handleMidiMessage_state data st.
Proof.
  intros Hord.
  destruct (decide (take 6 data = [0xf0; 0x00; 0x01; 0x0c; 0x01; 0x01]))
    as [Hhead | Hhead].
  { rewrite !(handleMidiMessage_state_dump data _ Hhead).
    destruct (parsePatchDump data) as [parsed |] eqn:Hparsed; [| reflexivity].
    destruct (isEditBuffer parsed) eqn:Hedit.
    - unfold setParams. cbn. f_equal.
      now rewrite (assoc_L (∪)), (idemp_L (∪)).
    - apply storePreset_idempotent; [| exact Hord].
      destruct (parsePatchDump_stored_number data parsed Hparsed Hedit)
        as (n & _ & Hn & _).
      now exists n. }
  destruct (decide (js_and_val (js_get data 0) 0xf0 = 0xb0)) as [Hcc | Hcc].
  { rewrite !(handleMidiMessage_state_cc_any data _ Hcc).
    destruct (scanCCMap _ _ _) as [[key v] |]; [| reflexivity].
    unfold setParams. cbn. f_equal. apply insert_insert_eq. }
  destruct (decide (js_and_val (js_get data 0) 0xf0 = 0xc0)) as [Hpc | Hpc].
  { now rewrite !(handleMidiMessage_state_pc data _ Hpc). }
  now rewrite !(handleMidiMessage_state_unhandled data _ Hhead Hcc Hpc).
Qed.

Lemma handleMidiMessage_state_idempotent_witness :
  handleMidiMessage_state [0xb0; 13; 100]
    (handleMidiMessage_state [0xb0; 13; 100]
       (Editor.mk DEFAULT_PARAMS [] false 0 (JNum 0) true false None))
  = handleMidiMessage_state [0xb0; 13; 100]
      (Editor.mk DEFAULT_PARAMS [] false 0 (JNum 0) true false None).
Proof.
  apply handleMidiMessage_state_idempotent.
  exists []. split; [reflexivity | constructor].
Defined.

(** ** A bulk fetch *)

Section BulkFetch.

(** The numbers of the presets held after a stored-preset dump. *)
Lemma storePreset_numbers parsed n st :
  presetNumber parsed = JNum n ->
  (list_to_set (numberOf <$> Editor.presets (storePreset parsed st)) : gset Z)
  = {[n]} ∪ list_to_set (numberOf <$> Editor.presets st).
Proof.
  intros Hn. rewrite storePreset_presets.
  set (new := Preset.mk (presetNumber parsed) (name parsed) (params parsed)).
  change (presetNumber parsed) with (Preset.number new).
  assert (HnewOf : numberOf new = n) by (unfold numberOf; cbn; now rewrite Hn).
  apply set_eq. intros x.
  rewrite elem_of_union, elem_of_singleton, !elem_of_list_to_set,
    !list_elem_of_fmap.
  split.
  - intros (p & -> & Hp). apply stored_elem_of in Hp as [-> | [Hp _]].
    + now left.
    + right. now exists p.
  - intros [-> | (p & -> & Hp)].
    + exists new. split; [now symmetry |]. apply stored_elem_of. now left.
    + destruct (decide (Preset.number p = Preset.number new)) as [Heq | Hne].
      * exists new. split.
        -- unfold numberOf. now rewrite Heq.
        -- apply stored_elem_of. now left.
      * exists p. split; [reflexivity |]. apply stored_elem_of. now right.
Qed.

(** What a run of stored-preset dumps keeps. *)
Lemma stored_dump_step f st (S : gset Z) :
  take 6 f = [0xf0; 0x00; 0x01; 0x0c; 0x01; 0x01] ->
  f !! 6%nat <> Some 0x01 ->
  (151 <= length f)%nat ->
  fetchConsistent st ->
  list_to_set (numberOf <$> Editor.presets st) = S ->
  exists n, f !! 7%nat = Some n
    /\ fetchConsistent (handleMidiMessage_state f st)
    /\ list_to_set (numberOf <$> Editor.presets (handleMidiMessage_state f st))
       = {[n]} ∪ S
    /\ ((124 <= length (Editor.presets (handleMidiMessage_state f st)))%nat ->
        Editor.fetchingPresets (handleMidiMessage_state f st) = false).
Proof.
  intros Hhead H6 Hlen Hst HS.
  destruct (parsePatchDump_stored f H6 Hlen) as (n & r & Hn & Hr & He & Hpn).
  exists n. split; [exact Hn |].
  rewrite handleMidiMessage_state_dump, Hr, He by exact Hhead.
  split; [| split].
  - apply storePreset_fetchConsistent; [now exists n | exact Hst].
  - rewrite <- HS. now apply storePreset_numbers.
  - intros Hfull. rewrite storePreset_fetchingPresets.
    now rewrite (proj2 (Nat.leb_le _ _) Hfull).
Qed.

End BulkFetch.

(** X9. During a bulk fetch that starts with no preset, after any run of
    stored-preset dumps, in any order and with repetitions, the editor holds
    one preset for each distinct preset number received, the progress
    counter is the count of these numbers capped at 124, and the fetch is
    marked as finished once 124 distinct numbers have arrived. *)
Theorem bulk_fetch_progress (frames : list (list Z)) (st : Editor.t) :
  Editor.presets st = [] ->
  Editor.fetchProgress st = 0%nat ->
  Forall (fun f => take 6 f = [0xf0; 0x00; 0x01; 0x0c; 0x01; 0x01]
                   /\ f !! 6%nat <> Some 0x01
                   /\ (151 <= length f)%nat) frames ->
  (forall n,
     n ∈ omap (fun f : list Z => f !! 7%nat) frames
     <-> exists p,
           p ∈ Editor.presets
                 (foldl (fun s f => handleMidiMessage_state f s) st frames)
           /\ Preset.number p = JNum n)
  /\ length (Editor.presets
               (foldl (fun s f => handleMidiMessage_state f s) st frames))
     = size (list_to_set (omap (fun f : list Z => f !! 7%nat) frames)
             : gset Z)
  /\ Editor.fetchProgress
       (foldl (fun s f => handleMidiMessage_state f s) st frames)
     = Nat.min
         (size (list_to_set (omap (fun f : list Z => f !! 7%nat) frames)
                : gset Z))
         124
  /\ ((124 <= size (list_to_set (omap (fun f : list Z => f !! 7%nat) frames)
                    : gset Z))%nat ->
      Editor.fetchingPresets
        (foldl (fun s f => handleMidiMessage_state f s) st frames)
      = false).
Proof.
  intros Hempty Hzero Hframes.
  set (run := fun fs => foldl (fun s f => handleMidiMessage_state f s) st fs).
  set (received := fun fs : list (list Z) =>
         (list_to_set (omap (fun f : list Z => f !! 7%nat) fs) : gset Z)).
  assert (Hinv : fetchConsistent (run frames)
            /\ list_to_set (numberOf <$> Editor.presets (run frames))
               = received frames
            /\ ((124 <= length (Editor.presets (run frames)))%nat ->
                Editor.fetchingPresets (run frames) = false)).
  { induction frames as [| f fs IH] using rev_ind.
    - subst run received. cbn [foldl omap]. unfold fetchConsistent.
      rewrite Hzero, !Hempty. split; [| split].
      + split; [exists []; split; [reflexivity | constructor] | reflexivity].
      + reflexivity.
      + cbn. lia.
    - apply Forall_app in Hframes as [Hfs Hf].
      apply Forall_singleton in Hf as (Hhead & H6 & Hlen).
      destruct (IH Hfs) as (Hcons & Hnums & _).
      destruct (stored_dump_step f (run fs) (received fs) Hhead H6 Hlen
                  Hcons Hnums) as (n & Hn & Hcons' & Hnums' & Hdone).
      assert (Hrun : run (fs ++ [f]) = handleMidiMessage_state f (run fs)).
      { subst run. cbn beta. now rewrite foldl_app. }
      assert (Hrec : received (fs ++ [f]) = {[n]} ∪ received fs).
      { subst received. cbn beta. rewrite omap_app, list_to_set_app_L.
        assert (Hone : omap (fun f : list Z => f !! 7%nat) [f] = [n])
          by (cbn; now rewrite Hn).
        rewrite Hone. cbn [list_to_set foldr].
        change (list_to_set [n] : gset Z) with ({[n]} ∪ ∅ : gset Z).
        rewrite (right_id_L ∅ (∪)). apply (comm_L (∪)). }
      rewrite Hrun, Hrec. split; [exact Hcons' |]. split; [exact Hnums' |].
      exact Hdone. }
  destruct Hinv as ([Hord Hprog] & Hnums & Hdone).
  fold (run frames) (received frames).
  assert (Hlen : length (Editor.presets (run frames)) = size (received frames)).
  { rewrite <- Hnums.
    rewrite size_list_to_set by (now apply presetsOrdered_NoDup).
    now rewrite length_fmap. }
  split; [| split; [exact Hlen | split]].
  - intros n.
    rewrite <- (elem_of_list_to_set (C := gset Z)).
    fold (received frames). rewrite <- Hnums.
    rewrite elem_of_list_to_set, list_elem_of_fmap.
    apply presetsOrdered_alt in Hord as [Hnum _].
    rewrite Forall_forall in Hnum.
    split.
    + intros (p & -> & Hp). exists p. split; [exact Hp |].
      now apply numbered_numberOf, Hnum.
    + intros (p & Hp & Hpn). exists p. split; [| exact Hp].
      unfold numberOf. now rewrite Hpn.
  - now rewrite Hprog, Hlen.
  - intros Hfull. apply Hdone. lia.
Qed.

Lemma bulk_fetch_progress_witness :
  Editor.fetchProgress
    (foldl (fun s f => handleMidiMessage_state f s)
       (Editor.mk DEFAULT_PARAMS [] true 0 (JNum 0) true false None)
       [ [0xf0; 0x00; 0x01; 0x0c; 0x01; 0x01; 0x00; 0x05; 0x00]
           ++ replicate 142 0x00;
         [0xf0; 0x00; 0x01; 0x0c; 0x01; 0x01; 0x00; 0x03; 0x00]
           ++ replicate 142 0x01;
         [0xf0; 0x00; 0x01; 0x0c; 0x01; 0x01; 0x00; 0x05; 0x00]
           ++ replicate 142 0x02 ])
  = 2%nat.
Proof.
  destruct (bulk_fetch_progress
              [ [0xf0; 0x00; 0x01; 0x0c; 0x01; 0x01; 0x00; 0x05; 0x00]
                  ++ replicate 142 0x00;
                [0xf0; 0x00; 0x01; 0x0c; 0x01; 0x01; 0x00; 0x03; 0x00]
                  ++ replicate 142 0x01;
                [0xf0; 0x00; 0x01; 0x0c; 0x01; 0x01; 0x00; 0x05; 0x00]
                  ++ replicate 142 0x02 ]
              (Editor.mk DEFAULT_PARAMS [] true 0 (JNum 0) true false None))
    as (_ & _ & Hprog & _).
  - reflexivity.
  - reflexivity.
  - repeat constructor; try discriminate; vm_compute; lia.
  - exact Hprog.
Defined.

(** ** Outgoing messages *)

Section Outgoing.

Lemma objGet_elem_of {A} key (v : A) (entries : list (string * A)) :
  NoDup entries.*1 -> (key, v) ∈ entries -> objGet key entries = Some v.
Proof.
  induction entries as [| [k w] entries IH]; intros Hnd Hin.
  - now apply elem_of_nil in Hin.
  - rewrite fmap_cons in Hnd. apply NoDup_cons in Hnd as [Hfresh Hnd].
    cbn [objGet]. apply elem_of_cons in Hin as [Heq | Hin].
    + injection Heq as -> ->. now rewrite bool_decide_eq_true_2.
    + rewrite bool_decide_eq_false_2; [now apply IH |].
      intros ->. apply Hfresh. cbn.
      now apply (list_elem_of_fmap_2 fst entries (key, v)).
Qed.

Lemma MIDI_CC_MAP_cc_range :
  Forall (fun e : string * CCDef.t => 0 <= CCDef.cc e.2 <= 127) MIDI_CC_MAP.
Proof. apply (bool_decide_unpack _). vm_compute. exact I. Qed.

(** The value that [handleParamChange] puts on the wire. *)
Lemma handleParamChange_connected key def value st sent :
  (key, def) ∈ MIDI_CC_MAP ->
  Editor.connected st = true ->
  Editor.outputRef st = Some sent ->
  Editor.outputRef (handleParamChange key value st)
  = Some (sent ++ [[JNum 0xb0; JNum (CCDef.cc def);
                    JNum (if bool_decide (CCDef.max def = 1)
                          then (if bool_decide (value <> 0) then 127 else 0)
                          else value)]]).
Proof.
  intros Hin Hconn Hout. unfold handleParamChange.
  rewrite Hconn, (objGet_elem_of key def MIDI_CC_MAP MIDI_CC_MAP_keys_NoDup Hin).
  unfold sendCC, send. cbn [setDirty setParams Editor.outputRef].
  now rewrite Hout.
Qed.

Lemma handleParamChange_params key value st :
  Editor.params (handleParamChange key value st)
  = <[key := JNum value]> (Editor.params st).
Proof.
  unfold handleParamChange. destruct (Editor.connected st); [| reflexivity].
  destruct (objGet key MIDI_CC_MAP); [| reflexivity].
  unfold sendCC, send. cbn. now destruct (Editor.outputRef st).
Qed.

End Outgoing.

(** X10. A parameter change goes out and comes back unchanged: when the
    editor is connected, [handleParamChange] for a parameter of
    [MIDI_CC_MAP] sends one Control Change message, and handling that very
    message stores the value that was set, whatever the state of the
    receiver (for a toggle, set to 0 or 1, the wire carries 0 or 127). *)
Theorem handleParamChange_echo
    (key : string) (def : CCDef.t) (value : Z) (st : Editor.t)
    (sent : list (list jsval)) :
  (key, def) ∈ MIDI_CC_MAP ->
  Editor.connected st = true ->
  Editor.outputRef st = Some sent ->
  (CCDef.max def = 1 -> value = 0 \/ value = 1) ->
  exists msg : list Z,
    Editor.outputRef (handleParamChange key value st)
    = Some (sent ++ [JNum <$> msg])
    /\ (forall prev, handleMidiMessage msg prev = <[key := JNum value]> prev)
    /\ handleMidiMessage msg (Editor.params st)
       = Editor.params (handleParamChange key value st).
Proof.
  intros Hin Hconn Hout Htoggle.
  exists [0xb0; CCDef.cc def;
          if bool_decide (CCDef.max def = 1)
          then (if bool_decide (value <> 0) then 127 else 0) else value].
  split; [now apply handleParamChange_connected |].
  assert (Hecho : forall prev,
            handleMidiMessage
              [0xb0; CCDef.cc def;
               if bool_decide (CCDef.max def = 1)
               then (if bool_decide (value <> 0) then 127 else 0) else value]
              prev
            = <[key := JNum value]> prev).
  { intros prev.
    rewrite (handleMidiMessage_descriptor 0xb0 _ key def prev eq_refl Hin).
    unfold adjustedVal. case_bool_decide as Hmax; [| reflexivity].
    destruct (Htoggle Hmax) as [-> | ->]; reflexivity. }
  split; [exact Hecho |].
  now rewrite Hecho, handleParamChange_params.
Qed.

Lemma handleParamChange_echo_witness :
  exists msg : list Z,
    Editor.outputRef
      (handleParamChange "dist_enable" 1
         (Editor.mk DEFAULT_PARAMS [] false 0 (JNum 0) true false (Some [])))
    = Some ([] ++ [JNum <$> msg])
    /\ handleMidiMessage msg DEFAULT_PARAMS
       = <["dist_enable"%string := JNum 1]> DEFAULT_PARAMS.
Proof.
  destruct (handleParamChange_echo "dist_enable"
              (CCDef.mk 25 "Dist Enable" 0 1) 1
              (Editor.mk DEFAULT_PARAMS [] false 0 (JNum 0) true false (Some []))
              [])
    as (msg & Hsent & Hecho & _).
  - apply (bool_decide_unpack _). vm_compute. exact I.
  - reflexivity.
  - reflexivity.
  - intros _. now right.
  - exists msg. split; [exact Hsent | apply Hecho].
Defined.

(** X11. What [handleParamChange] sends for a parameter of [MIDI_CC_MAP]
    and a value within 0..127 is a well-formed Control Change message on
    channel 1: status B0, the controller number of the parameter and a data
    byte within 0..127, which is 0 or 127 for a parameter with [max = 1]
    and the value itself otherwise. *)
Theorem handleParamChange_sends_control_change
    (key : string) (def : CCDef.t) (value : Z) (st : Editor.t)
    (sent : list (list jsval)) :
  (key, def) ∈ MIDI_CC_MAP ->
  Editor.connected st = true ->
  Editor.outputRef st = Some sent ->
  0 <= value <= 127 ->
  exists v,
    Editor.outputRef (handleParamChange key value st)
    = Some (sent ++ [[JNum 0xb0; JNum (CCDef.cc def); JNum v]])
    /\ 0 <= CCDef.cc def <= 127
    /\ 0 <= v <= 127
    /\ (CCDef.max def = 1 -> v = 0 \/ v = 127)
    /\ (CCDef.max def <> 1 -> v = value).
Proof.
  intros Hin Hconn Hout Hvalue.
  eexists. split; [now apply handleParamChange_connected |].
  split.
  { exact (proj1 (Forall_forall _ _) MIDI_CC_MAP_cc_range (key, def) Hin). }
  repeat case_bool_decide; repeat split; intros; try lia; try contradiction;
    auto.
Qed.

Lemma handleParamChange_sends_control_change_witness :
  Editor.outputRef
    (handleParamChange "drive" 100
       (Editor.mk DEFAULT_PARAMS [] false 0 (JNum 0) true false (Some [])))
  = Some [[JNum 0xb0; JNum 13; JNum 100]].
Proof.
  destruct (handleParamChange_sends_control_change "drive"
              (CCDef.mk 13 "Drive" 0 127) 100
              (Editor.mk DEFAULT_PARAMS [] false 0 (JNum 0) true false (Some []))
              [])
    as (v & Hsent & _ & _ & _ & Hv).
  - apply (bool_decide_unpack _). vm_compute. exact I.
  - reflexivity.
  - reflexivity.
  - lia.
  - rewrite Hsent. rewrite Hv by discriminate. reflexivity.
Defined.

(** X12. Editing while the editor is not connected, or while it has no
    output port, sends nothing: [handleParamChange] still records the value
    and marks the state as modified. *)
Theorem handleParamChange_offline (key : string) (value : Z) (st : Editor.t) :
  Editor.connected st = false \/ Editor.outputRef st = None ->
  Editor.outputRef (handleParamChange key value st) = Editor.outputRef st
  /\ Editor.params (handleParamChange key value st)
     = <[key := JNum value]> (Editor.params st)
  /\ Editor.dirty (handleParamChange key value st) = true.
Proof.
  intros Hoff. split; [| split; [apply handleParamChange_params |]].
  - unfold handleParamChange.
    destruct (Editor.connected st) eqn:Hconn; [| reflexivity].
    destruct Hoff as [Hoff | Hout]; [discriminate |].
    destruct (objGet key MIDI_CC_MAP); [| reflexivity].
    unfold sendCC, send. cbn. now rewrite Hout.
  - unfold handleParamChange. destruct (Editor.connected st); [| reflexivity].
    destruct (objGet key MIDI_CC_MAP); [| reflexivity].
    unfold sendCC, send. cbn. now destruct (Editor.outputRef st).
Qed.

Lemma handleParamChange_offline_witness :
  Editor.outputRef
    (handleParamChange "drive" 100
       (Editor.mk DEFAULT_PARAMS [] false 0 (JNum 0) false false (Some [])))
  = Some []
  /\ Editor.dirty
       (handleParamChange "drive" 100
          (Editor.mk DEFAULT_PARAMS [] false 0 (JNum 0) false false (Some [])))
     = true.
Proof.
  destruct (handleParamChange_offline "drive" 100
              (Editor.mk DEFAULT_PARAMS [] false 0 (JNum 0) false false (Some [])))
    as (Hout & _ & Hdirty); [now left |].
  split; [exact Hout | exact Hdirty].
Defined.

(** ** Presets: loading and fetching *)



(** X14. Fetching a preset and loading it: after a stored-preset dump of
    the device has been handled, the preset with the number at index 7 is
    held, and loading it sets every parameter of the offset table to the
    byte of the dump at its offset and keeps the other parameters. *)
Theorem stored_dump_then_loadPreset (data : list Z) (st st2 : Editor.t) :
  take 6 data = [0xf0; 0x00; 0x01; 0x0c; 0x01; 0x01] ->
  data !! 6%nat <> Some 0x01 ->
  (151 <= length data)%nat ->
  exists n preset,
    data !! 7%nat = Some n
    /\ preset ∈ Editor.presets (handleMidiMessage_state data st)
    /\ Preset.number preset = JNum n
    /\ (forall off key, (off, key) ∈ PATCH_PARAM_MAP ->
          exists hi lo,
            data !! (9 + 2 * off)%nat = Some hi
            /\ data !! (9 + (2 * off + 1))%nat = Some lo
            /\ Editor.params (loadPreset preset st2) !! key
               = Some (JNum (js_or (js_shl hi 4) lo)))
    /\ (forall key, key ∉ PATCH_PARAM_MAP.*2 ->
          Editor.params (loadPreset preset st2) !! key
          = Editor.params st2 !! key).
Proof.
  intros Hhead H6 Hlen.
  destruct (parsePatchDump_stored data H6 Hlen) as (n & r & Hn & Hr & He & Hpn).
  exists n, (Preset.mk (JNum n) (name r) (params r)).
  split; [exact Hn |]. split.
  { rewrite handleMidiMessage_state_dump, Hr, He by exact Hhead.
    rewrite storePreset_presets, Hpn.
    apply (stored_elem_of (Editor.presets st)
             (Preset.mk (JNum n) (name r) (params r))).
    now left. }
  split; [reflexivity |].
  assert (Hstart : nibbleStart data = 9%nat).
  { unfold nibbleStart. now rewrite bool_decide_eq_false_2. }
  assert (Hparams : Editor.params
                      (loadPreset (Preset.mk (JNum n) (name r) (params r)) st2)
                    = params r ∪ Editor.params st2).
  { unfold loadPreset, sendProgramChange, send.
    now destruct (Editor.outputRef st2). }
  rewrite Hparams. split.
  - intros off key Hin.
    destruct (parsed_param_at data r off key Hr Hin)
      as (hi & lo & Hhi & Hlo & Hv).
    rewrite Hstart in Hhi, Hlo. exists hi, lo. repeat split; try assumption.
    now apply lookup_union_Some_l.
  - intros key Hkey. apply lookup_union_r.
    now apply (parsed_param_absent data r key Hr).
Qed.

Lemma stored_dump_then_loadPreset_witness :
  exists preset,
    preset ∈ Editor.presets
               (handleMidiMessage_state
                  ([0xf0; 0x00; 0x01; 0x0c; 0x01; 0x01; 0x00; 0x2a; 0x00]
                   ++ replicate 142 0x05 ++ [0xf7])
                  (Editor.mk DEFAULT_PARAMS [] true 0 (JNum 0) true false None))
    /\ Preset.number preset = JNum 0x2a
    /\ Editor.params
         (loadPreset preset
            (Editor.mk DEFAULT_PARAMS [] false 1 (JNum 0) true false None))
         !! "drive"%string
       = Some (JNum 0x55).
Proof.
  destruct (stored_dump_then_loadPreset
              ([0xf0; 0x00; 0x01; 0x0c; 0x01; 0x01; 0x00; 0x2a; 0x00]
               ++ replicate 142 0x05 ++ [0xf7])
              (Editor.mk DEFAULT_PARAMS [] true 0 (JNum 0) true false None)
              (Editor.mk DEFAULT_PARAMS [] false 1 (JNum 0) true false None))
    as (n & preset & Hn & Hin & Hnum & Hset & _);
    [reflexivity | discriminate | vm_compute; lia |].
  vm_compute in Hn. injection Hn as <-.
  exists preset. split; [exact Hin |]. split; [exact Hnum |].
  destruct (Hset 9%nat "drive"%string) as (hi & lo & Hhi & Hlo & Hv).
  { apply (bool_decide_unpack _). vm_compute. exact I. }
  vm_compute in Hhi, Hlo. injection Hhi as <-. injection Hlo as <-. exact Hv.
Defined.

(** X15. [fetchAllPresets] starts a bulk fetch only when the editor is
    connected and no fetch is running: it then drops the presets held,
    resets the progress counter, marks the fetch as running and sends the
    request F0 00 01 0C 01 00 02 F7 when there is an output port. Otherwise
    it does nothing; in particular calling it twice is the same as calling
    it once. *)
Theorem fetchAllPresets_starts_once (st : Editor.t) :
  (Editor.connected st = true -> Editor.fetchingPresets st = false ->
   Editor.presets (fetchAllPresets st) = []
   /\ Editor.fetchProgress (fetchAllPresets st) = 0%nat
   /\ Editor.fetchingPresets (fetchAllPresets st) = true
   /\ Editor.params (fetchAllPresets st) = Editor.params st
   /\ forall sent, Editor.outputRef st = Some sent ->
        Editor.outputRef (fetchAllPresets st)
        = Some (sent ++ [JNum <$> [0xf0; 0x00; 0x01; 0x0c; 0x01; 0x00; 0x02;
                                   0xf7]]))
  /\ (Editor.connected st = false \/ Editor.fetchingPresets st = true ->
      fetchAllPresets st = st)
  /\ fetchAllPresets (fetchAllPresets st) = fetchAllPresets st.
Proof.
  assert (Hskip : forall s,
            Editor.connected s = false \/ Editor.fetchingPresets s = true ->
            fetchAllPresets s = s).
  { intros s [Hconn | Hfetch]; unfold fetchAllPresets.
    - now rewrite Hconn.
    - rewrite Hfetch. now rewrite orb_true_r. }
  assert (Hstart : Editor.connected st = true ->
            Editor.fetchingPresets st = false ->
            fetchAllPresets st
            = Editor.mk (Editor.params st) [] true 0
                (Editor.currentPreset st) true (Editor.dirty st)
                (match Editor.outputRef st with
                 | Some sent => Some (sent ++ [JNum <$> REQUEST_ALL_PRESETS])
                 | None => None
                 end)).
  { intros Hconn Hfetch. unfold fetchAllPresets. rewrite Hconn, Hfetch.
    cbn [negb orb]. unfold sendSysEx, send.
    cbn [setFetchProgress setPresets setFetchingPresets Editor.outputRef].
    destruct (Editor.outputRef st) eqn:Hout;
      unfold setFetchProgress, setPresets, setFetchingPresets; cbn;
      rewrite ?Hconn, ?Hout; reflexivity. }
  split; [| split; [apply Hskip |]].
  - intros Hconn Hfetch. rewrite (Hstart Hconn Hfetch).
    cbn [Editor.presets Editor.fetchProgress Editor.fetchingPresets
         Editor.params Editor.outputRef].
    repeat split. intros sent ->. reflexivity.
  - destruct (Editor.connected st) eqn:Hconn;
      [| now rewrite !(Hskip st) by now left].
    destruct (Editor.fetchingPresets st) eqn:Hfetch;
      [now rewrite !(Hskip st) by now right |].
    apply Hskip. right. now rewrite (Hstart eq_refl eq_refl).
Qed.

Lemma fetchAllPresets_starts_once_witness :
  Editor.outputRef
    (fetchAllPresets
       (Editor.mk DEFAULT_PARAMS [] false 7 (JNum 0) true false (Some [])))
  = Some [JNum <$> [0xf0; 0x00; 0x01; 0x0c; 0x01; 0x00; 0x02; 0xf7]]
  /\ fetchAllPresets
       (Editor.mk DEFAULT_PARAMS [] true 7 (JNum 0) true false (Some []))
     = Editor.mk DEFAULT_PARAMS [] true 7 (JNum 0) true false (Some []).
Proof.
  split.
  - destruct (fetchAllPresets_starts_once
                (Editor.mk DEFAULT_PARAMS [] false 7 (JNum 0) true false
                           (Some []))) as (Hstart & _ & _).
    destruct (Hstart eq_refl eq_refl) as (_ & _ & _ & _ & Hsent).
    exact (Hsent [] eq_refl).
  - destruct (fetchAllPresets_starts_once
                (Editor.mk DEFAULT_PARAMS [] true 7 (JNum 0) true false
                           (Some []))) as (_ & Hskip & _).
    apply Hskip. now right.
Defined.

(** ** What the parser reads *)

Section ParserReads.

(** The parser is a function of [data[6]], [data[7]] and the payload. *)
Lemma parsePatchDump_ext data data' :
  data' !! 6%nat = data !! 6%nat ->
  (data !! 6%nat <> Some 0x01 -> data' !! 7%nat = data !! 7%nat) ->
  take 142 (drop (nibbleStart data) data')
  = take 142 (drop (nibbleStart data) data) ->
  parsePatchDump data' = parsePatchDump data.
Proof.
  intros H6 H7 Hpay. rewrite !parsePatchDump_unfold. cbv zeta.
  assert (Hstart : nibbleStart data' = nibbleStart data).
  { unfold nibbleStart. now rewrite H6. }
  rewrite Hstart, Hpay, H6.
  destruct (_ <? 142)%nat; [reflexivity |].
  case_bool_decide as Hedit; [reflexivity |].
  unfold js_get. now rewrite (H7 Hedit).
Qed.

Lemma decodeNibbles_drop (k : nat) l :
  drop k (decodeNibbles l) = decodeNibbles (drop (2 * k) l).
Proof.
  revert l. induction k as [| k IH]; intros l; [reflexivity |].
  replace (2 * S k)%nat with (S (S (2 * k))) by lia.
  destruct l as [| x [| y l]]; try reflexivity.
  cbn [decodeNibbles drop]. apply IH.
Qed.

Lemma decodeNibbles_take (k : nat) l :
  take k (decodeNibbles l) = decodeNibbles (take (2 * k) l).
Proof.
  revert l. induction k as [| k IH]; intros l; [reflexivity |].
  replace (2 * S k)%nat with (S (S (2 * k))) by lia.
  destruct l as [| x [| y l]]; try reflexivity.
  cbn [decodeNibbles take]. f_equal. apply IH.
Qed.

Lemma trim_length s : (length (trim s) <= length s)%nat.
Proof.
  destruct (trim_split s) as (pre & suf & Hs & _).
  rewrite Hs at 2. rewrite !length_app. lia.
Qed.

End ParserReads.

(** X16. [parsePatchDump] ignores the version byte (index 7 of an
    edit-buffer frame, index 8 of a stored-preset frame) and everything
    after the 142 payload elements, the end marker F7 included. *)
Theorem parsePatchDump_ignores_version_and_tail (data : list Z) :
  (forall v, data !! 6%nat = Some 0x01 ->
     parsePatchDump (<[7%nat := v]> data) = parsePatchDump data)
  /\ (forall v, data !! 6%nat <> Some 0x01 ->
        parsePatchDump (<[8%nat := v]> data) = parsePatchDump data)
  /\ (forall extra, (nibbleStart data + 142 <= length data)%nat ->
        parsePatchDump (data ++ extra) = parsePatchDump data
        /\ parsePatchDump (take (nibbleStart data + 142) data)
           = parsePatchDump data).
Proof.
  split; [| split].
  - intros v H6. apply parsePatchDump_ext.
    + now apply list_lookup_insert_ne.
    + intros Hne. contradiction.
    + unfold nibbleStart. rewrite bool_decide_eq_true_2 by exact H6.
      now rewrite drop_insert_lt by lia.
  - intros v H6. apply parsePatchDump_ext.
    + now apply list_lookup_insert_ne.
    + intros _. now apply list_lookup_insert_ne.
    + unfold nibbleStart. rewrite bool_decide_eq_false_2 by exact H6.
      now rewrite drop_insert_lt by lia.
  - intros extra Hlen.
    assert (Hstart : (8 <= nibbleStart data)%nat)
      by (unfold nibbleStart; case_bool_decide; lia).
    split.
    + apply parsePatchDump_ext.
      * apply lookup_app_l. lia.
      * intros _. apply lookup_app_l. lia.
      * rewrite drop_app_le by lia. apply take_app_le.
        rewrite length_drop. lia.
    + apply parsePatchDump_ext.
      * apply lookup_take_lt. lia.
      * intros _. apply lookup_take_lt. lia.
      * rewrite <- take_drop_commute. apply take_take.
Qed.

Lemma parsePatchDump_ignores_version_and_tail_witness :
  parsePatchDump ([0xf0; 0x00; 0x01; 0x0c; 0x01; 0x01; 0x01; 0x33]
                  ++ replicate 142 0x05)
  = parsePatchDump ([0xf0; 0x00; 0x01; 0x0c; 0x01; 0x01; 0x01; 0x00]
                    ++ replicate 142 0x05)
  /\ parsePatchDump (([0xf0; 0x00; 0x01; 0x0c; 0x01; 0x01; 0x01; 0x00]
                      ++ replicate 142 0x05) ++ [0xf7])
     = parsePatchDump ([0xf0; 0x00; 0x01; 0x0c; 0x01; 0x01; 0x01; 0x00]
                       ++ replicate 142 0x05).
Proof.
  destruct (parsePatchDump_ignores_version_and_tail
              ([0xf0; 0x00; 0x01; 0x0c; 0x01; 0x01; 0x01; 0x00]
               ++ replicate 142 0x05)) as (Hver & _ & Htail).
  split.
  - exact (Hver 0x33 eq_refl).
  - apply (Htail [0xf7]). vm_compute. lia.
Defined.

(** X17. The name of a parsed dump is what [decodePatchName] gives for the
    32 payload elements from payload position 110 on, and has at most 16
    characters. *)
Theorem parsePatchDump_name (data : list Z) (r : PatchRecord) :
  parsePatchDump data = Some r ->
  name r = decodePatchName (take 32 (drop (nibbleStart data + 110) data))
  /\ (length (name r) <= 16)%nat.
Proof.
  intros Hr.
  assert (Hn : name <$> parsePatchDump data = Some (name r))
    by now rewrite Hr.
  rewrite parsePatchDump_unfold in Hn. cbv zeta in Hn.
  destruct (_ <? 142)%nat; [discriminate |].
  cbn [fmap option_fmap option_map name] in Hn.
  apply (inj Some) in Hn. rewrite <- Hn. clear Hn Hr.
  assert (Hname : slice 55 71
                    (decodeNibbles (take 142 (drop (nibbleStart data) data)))
                  = decodeNibbles
                      (take 32 (drop (nibbleStart data + 110) data))).
  { unfold slice. change (71 - 55)%nat with 16%nat.
    rewrite decodeNibbles_drop, decodeNibbles_take.
    change (2 * 55)%nat with 110%nat. change (2 * 16)%nat with 32%nat.
    rewrite <- (take_drop_commute _ 32 110), take_take, drop_drop.
    reflexivity. }
  rewrite Hname. split; [reflexivity |].
  fold (decodePatchName (take 32 (drop (nibbleStart data + 110) data))).
  unfold decodePatchName. etransitivity; [apply trim_length |].
  rewrite join_fromCharCode, length_map, decodeNibbles_length, length_take.
  apply Nat.Div0.div_le_upper_bound. lia.
Qed.

Lemma parsePatchDump_name_witness :
  exists r,
    parsePatchDump
      (buildPatchDump true 0 None (of_string "My Cool Patch   ")) = Some r
    /\ name r
       = decodePatchName
           (take 32 (drop 118
                       (buildPatchDump true 0 None
                                       (of_string "My Cool Patch   ")))).
Proof.
  destruct (parsePatchDump
              (buildPatchDump true 0 None (of_string "My Cool Patch   ")))
    as [r |] eqn:Hr; [| vm_compute in Hr; discriminate].
  exists r. split; [reflexivity |].
  exact (proj1 (parsePatchDump_name _ r Hr)).
Defined.

(** ** Splitting into nibbles and decoding *)

Section NibbleSplit.

Lemma js_and_15_range x : 0 <= js_and x 0x0F < 16.
Proof.
  unfold js_and. rewrite (toInt32_id 15) by lia.
  change 15 with (Z.ones 4). rewrite Z.land_ones by lia.
  apply Z.mod_pos_bound. lia.
Qed.

Lemma nibblized_range (bytes : list Z) :
  Forall (fun x => 0 <= x < 16)
    (flat_map (fun byte => [js_and (js_sar byte 4) 0x0F; js_and byte 0x0F])
              bytes).
Proof.
  induction bytes as [| b bytes IH]; [constructor |].
  cbn [flat_map app]. repeat constructor; try apply js_and_15_range.
  exact IH.
Qed.

(** The two nibbles of the byte built from two nibbles. *)
Lemma split_js_or_shl hi lo :
  0 <= hi < 16 -> 0 <= lo < 16 ->
  js_and (js_sar (js_or (js_shl hi 4) lo) 4) 0x0F = hi
  /\ js_and (js_or (js_shl hi 4) lo) 0x0F = lo.
Proof.
  intros Hhi Hlo. rewrite js_or_shl_nibbles by assumption.
  unfold js_and, js_sar. change (4 mod 32) with 4.
  rewrite (toInt32_id 15), (toInt32_id (hi * 16 + lo)) by lia.
  rewrite Z.shiftr_div_pow2 by lia. change (2 ^ 4) with 16.
  replace ((hi * 16 + lo) / 16) with hi
    by (rewrite Z.div_add_l, Z.div_small; lia).
  rewrite (toInt32_id hi) by lia.
  change 15 with (Z.ones 4). rewrite !Z.land_ones by lia.
  change (2 ^ 4) with 16. split.
  - apply Z.mod_small. lia.
  - rewrite Z.add_comm, Z.mod_add, Z.mod_small; lia.
Qed.

Lemma decodeNibbles_range nibbles :
  Forall (fun x => 0 <= x < 16) nibbles ->
  Forall (fun b => 0 <= b < 256) (decodeNibbles nibbles).
Proof.
  induction nibbles as [| x | x y l IH] using list_pair_ind; intros Hall.
  - constructor.
  - constructor.
  - apply Forall_cons in Hall as [Hx Hall].
    apply Forall_cons in Hall as [Hy Hall].
    cbn [decodeNibbles]. constructor; [| now apply IH].
    rewrite js_or_shl_nibbles by assumption. lia.
Qed.

Lemma nibblized_decodeNibbles nibbles :
  Nat.Even (length nibbles) ->
  Forall (fun x => 0 <= x < 16) nibbles ->
  flat_map (fun byte => [js_and (js_sar byte 4) 0x0F; js_and byte 0x0F])
           (decodeNibbles nibbles)
  = nibbles.
Proof.
  induction nibbles as [| x | x y l IH] using list_pair_ind; intros Hev Hall.
  - reflexivity.
  - destruct Hev as [k Hk]. cbn in Hk. lia.
  - apply Forall_cons in Hall as [Hx Hall].
    apply Forall_cons in Hall as [Hy Hall].
    cbn [decodeNibbles flat_map app].
    destruct (split_js_or_shl x y Hx Hy) as [-> ->].
    rewrite IH; [reflexivity | | exact Hall].
    destruct Hev as [k Hk]. cbn in Hk. exists (k - 1)%nat. lia.
Qed.

End NibbleSplit.

(** X18. Splitting bytes into nibbles, as the dump builder of the test
    suite does, and decoding them are inverse to each other: every nibble
    produced lies within 0..15, decoding the nibbles of bytes within 0..255
    gives the bytes back, and splitting the bytes decoded from an even
    number of nibbles within 0..15 gives the nibbles back, the decoded
    bytes lying within 0..255. *)
Theorem nibble_split_decode_inverse (bytes nibbles : list Z) :
  Forall (fun x => 0 <= x < 16)
    (flat_map (fun byte => [js_and (js_sar byte 4) 0x0F; js_and byte 0x0F])
              bytes)
  /\ (Forall (fun b => 0 <= b < 256) bytes ->
      decodeNibbles
        (flat_map (fun byte => [js_and (js_sar byte 4) 0x0F;
                                js_and byte 0x0F]) bytes)
      = bytes)
  /\ (Nat.Even (length nibbles) ->
      Forall (fun x => 0 <= x < 16) nibbles ->
      flat_map (fun byte => [js_and (js_sar byte 4) 0x0F; js_and byte 0x0F])
               (decodeNibbles nibbles)
      = nibbles
      /\ Forall (fun b => 0 <= b < 256) (decodeNibbles nibbles)).
Proof.
  split; [apply nibblized_range |]. split.
  - intros Hbytes. rewrite decodeNibbles_nibblized.
    now apply map_mod256_bytes.
  - intros Hev Hall. split.
    + now apply nibblized_decodeNibbles.
    + now apply decodeNibbles_range.
Qed.

Lemma nibble_split_decode_inverse_witness :
  decodeNibbles
    (flat_map (fun byte => [js_and (js_sar byte 4) 0x0F; js_and byte 0x0F])
              [0xA5; 0x00; 0xFF])
  = [0xA5; 0x00; 0xFF]
  /\ flat_map (fun byte => [js_and (js_sar byte 4) 0x0F; js_and byte 0x0F])
              (decodeNibbles [0x0A; 0x05; 0x0F; 0x00])
     = [0x0A; 0x05; 0x0F; 0x00].
Proof.
  destruct (nibble_split_decode_inverse [0xA5; 0x00; 0xFF]
              [0x0A; 0x05; 0x0F; 0x00]) as (_ & Hdec & Hsplit).
  split.
  - apply Hdec. apply (bool_decide_unpack _). vm_compute. exact I.
  - apply Hsplit.
    + exists 2%nat. reflexivity.
    + apply (bool_decide_unpack _). vm_compute. exact I.
Defined.

(** X19. The dump that the builder of the test suite makes for a name of
    16 code units, 55 parameter values and a program number within 0..127
    is a well-formed SysEx frame: it starts with F0, ends with F7, every
    element in between lies within 0..127, and it has 151 elements for an
    edit buffer and 152 for a stored preset. *)
Theorem buildPatchDump_well_formed
    (e : bool) (pn : Z) (pb : list Z) (nm : jsstring) :
  length nm = 16%nat ->
  length pb = 55%nat ->
  0 <= pn <= 127 ->
  exists middle,
    buildPatchDump e pn (Some pb) nm = 0xf0 :: middle ++ [0xf7]
    /\ Forall (fun x => 0 <= x <= 127) middle
    /\ length (buildPatchDump e pn (Some pb) nm)
       = (if e then 151 else 152)%nat.
Proof.
  intros Hnm Hpb Hpn. rewrite buildPatchDump_shape.
  set (nib := flat_map _ _).
  assert (Hrange : Forall (fun x => 0 <= x <= 127) nib).
  { subst nib. eapply Forall_impl; [apply nibblized_range |].
    cbn. intros x Hx. lia. }
  assert (Hlen : length nib = 142%nat).
  { subst nib. rewrite nibblized_length, length_app, Hpb.
    unfold slice. rewrite length_take, length_drop, length_app, Hnm.
    cbn. lia. }
  clearbody nib.
  exists ([0x00; 0x01; 0x0c; 0x01; 0x01]
          ++ (if e then [0x01; 0x00] else [0x00; pn; 0x00]) ++ nib).
  split; [| split].
  - cbn [app]. now rewrite <- !app_assoc.
  - apply Forall_app. split; [repeat constructor; lia |].
    apply Forall_app. split; [| exact Hrange].
    destruct e; repeat constructor; lia.
  - rewrite !length_app, Hlen. destruct e; reflexivity.
Qed.

Lemma buildPatchDump_well_formed_witness :
  length (buildPatchDump false 42 (Some (replicate 55 200))
                         (of_string "Stored Preset   "))
  = 152%nat.
Proof.
  destruct (buildPatchDump_well_formed false 42 (replicate 55 200)
              (of_string "Stored Preset   ")) as (middle & _ & _ & Hlen);
    [reflexivity | reflexivity | lia |].
  exact Hlen.
Defined.

(** ** The knob and the bounded lists *)

(** X20. The keyboard handler of the knob reports a value only when it
    differs from the current one, and for a current value within
    [min, max] the reported value lies within [min, max]; at the upper end
    the increasing keys report nothing, at the lower end the decreasing
    keys report nothing, and any other key than the six handled ones
    reports nothing. *)
Theorem handleKeyDown_stays_in_range
    (key : string) (shiftKey : bool) (value min max : Z) :
  min <= value <= max ->
  (forall v, handleKeyDown key shiftKey value min max = Some v ->
     v <> value /\ min <= v <= max
     /\ Z.abs (v - value) <= Z.max (if shiftKey then 10 else 1) (max - min))
  /\ handleKeyDown "ArrowUp" shiftKey max min max = None
  /\ handleKeyDown "ArrowRight" shiftKey max min max = None
  /\ handleKeyDown "ArrowDown" shiftKey min min max = None
  /\ handleKeyDown "ArrowLeft" shiftKey min min max = None
  /\ (key ∉ ["ArrowUp"; "ArrowRight"; "ArrowDown"; "ArrowLeft";
             "Home"; "End"]%string ->
      handleKeyDown key shiftKey value min max = None).
Proof.
  intros Hrange. split; [| split; [| split; [| split; [| split]]]].
  - intros v. unfold handleKeyDown. destruct shiftKey; cbv zeta;
      repeat case_bool_decide; cbn [orb]; intros Hv;
      repeat case_bool_decide; try discriminate;
      injection Hv as <-; lia.
  - unfold handleKeyDown. destruct shiftKey; cbv zeta;
      repeat case_bool_decide; cbn [orb]; repeat case_bool_decide;
      first [reflexivity | lia | congruence].
  - unfold handleKeyDown. destruct shiftKey; cbv zeta;
      repeat case_bool_decide; cbn [orb]; repeat case_bool_decide;
      first [reflexivity | lia | congruence].
  - unfold handleKeyDown. destruct shiftKey; cbv zeta;
      repeat case_bool_decide; cbn [orb]; repeat case_bool_decide;
      first [reflexivity | lia | congruence].
  - unfold handleKeyDown. destruct shiftKey; cbv zeta;
      repeat case_bool_decide; cbn [orb]; repeat case_bool_decide;
      first [reflexivity | lia | congruence].
  - intros Hkey. unfold handleKeyDown.
    repeat (rewrite bool_decide_eq_false_2;
            [| intros Heq; apply Hkey; rewrite Heq;
               apply (bool_decide_unpack _); vm_compute; exact I]).
    reflexivity.
Qed.

Lemma handleKeyDown_stays_in_range_witness :
  handleKeyDown "ArrowUp" true 120 0 127 = Some 127
  /\ handleKeyDown "ArrowUp" true 127 0 127 = None
  /\ handleKeyDown "Enter" false 64 0 127 = None.
Proof.
  destruct (handleKeyDown_stays_in_range "Enter" true 64 0 127)
    as (_ & Hup & _ & _ & _ & Hother); [lia |].
  split; [reflexivity |]. split; [exact Hup |].
  apply (handleKeyDown_stays_in_range "Enter" false 64 0 127); [lia |].
  apply (bool_decide_unpack _). vm_compute. exact I.
Defined.

Section BoundedLists.

Context {A : Type}.

Lemma sliceLast_length (n : nat) (arr : list A) :
  length (sliceLast n arr) = Nat.min (length arr) n.
Proof. unfold sliceLast. rewrite length_drop. lia. Qed.

Lemma sliceLast_suffix (n : nat) (arr : list A) :
  arr = take (length arr - n) arr ++ sliceLast n arr.
Proof. unfold sliceLast. now rewrite take_drop. Qed.

End BoundedLists.

(** X21. The log and the error list are bounded: adding an entry keeps the
    last 200 log entries (the last 4 errors) in their order, drops the
    older ones and puts the new entry last, so the log never holds more
    than 201 entries and the error list never more than 5. *)
Theorem addLog_addError_bounded {A : Type} (entry : A) (prev : list A) :
  (exists dropped,
     prev ++ [entry] = dropped ++ addLog_update entry prev
     /\ length dropped = (length prev - 200)%nat)
  /\ (exists dropped,
        prev ++ [entry] = dropped ++ addError_update entry prev
        /\ length dropped = (length prev - 4)%nat)
  /\ length (addLog_update entry prev) = (Nat.min (length prev) 200 + 1)%nat
  /\ length (addError_update entry prev) = (Nat.min (length prev) 4 + 1)%nat
  /\ (length (addLog_update entry prev) <= 201)%nat
  /\ (length (addError_update entry prev) <= 5)%nat.
Proof.
  unfold addLog_update, addError_update.
  assert (Hlog := sliceLast_length 200 prev).
  assert (Herr := sliceLast_length 4 prev).
  split; [| split; [| split; [| split; [| split]]]].
  - exists (take (length prev - 200) prev). split.
    + rewrite app_assoc. f_equal. apply sliceLast_suffix.
    + rewrite length_take. lia.
  - exists (take (length prev - 4) prev). split.
    + rewrite app_assoc. f_equal. apply sliceLast_suffix.
    + rewrite length_take. lia.
  - rewrite length_app, Hlog. reflexivity.
  - rewrite length_app, Herr. reflexivity.
  - rewrite length_app, Hlog. cbn. lia.
  - rewrite length_app, Herr. cbn. lia.
Qed.

(** ** The tables of the protocol *)

Section Tables.

Lemma MIDI_CC_MAP_ranges :
  Forall (fun e : string * CCDef.t =>
            CCDef.min e.2 = 0 /\ 1 <= CCDef.max e.2 <= 127)
         MIDI_CC_MAP.
Proof. apply (bool_decide_unpack _). vm_compute. exact I. Qed.

Lemma DEFAULT_PARAMS_within_ranges :
  Forall (fun e : string * CCDef.t =>
            exists v, DEFAULT_PARAMS !! e.1 = Some (JNum v)
                      /\ CCDef.min e.2 <= v <= CCDef.max e.2)
         MIDI_CC_MAP.
Proof.
  assert (Hall :
    Forall (fun e : string * CCDef.t =>
              from_option
                (fun x => match x with
                          | JNum v => bool_decide
                                        (CCDef.min e.2 <= v <= CCDef.max e.2)
                          | _ => false
                          end) false (DEFAULT_PARAMS !! e.1) = true)
           MIDI_CC_MAP).
  { apply (bool_decide_unpack _). vm_compute. exact I. }
  eapply Forall_impl; [exact Hall |].
  intros [key def]. cbn [fst snd].
  destruct (DEFAULT_PARAMS !! key) as [[| | v] |]; cbn; try discriminate.
  intros Hv. exists v. split; [reflexivity |].
  now apply bool_decide_eq_true in Hv.
Qed.

Lemma PATCH_PARAM_MAP_described :
  Forall (fun e : nat * string => is_Some (objGet e.2 MIDI_CC_MAP))
         PATCH_PARAM_MAP.
Proof. apply (bool_decide_unpack _). vm_compute. exact I. Qed.

Lemma PATCH_PARAM_MAP_offsets_increase :
  StronglySorted lt PATCH_PARAM_MAP.*1.
Proof.
  cbn. repeat (apply SSorted_cons; [| repeat constructor; lia]).
  apply SSorted_nil.
Qed.

Lemma objGet_Some_elem_of {B} key (v : B) (entries : list (string * B)) :
  objGet key entries = Some v -> (key, v) ∈ entries.
Proof.
  induction entries as [| [k w] entries IH]; cbn [objGet]; [discriminate |].
  case_bool_decide as Hk.
  - intros [= ->]. subst k. apply elem_of_cons; now left.
  - intros Hget. apply elem_of_cons. right. now apply IH.
Qed.

End Tables.

(** X22. The three tables of parameters agree: every control of
    [MIDI_CC_MAP] has a controller number within 0..127 and the range 0..max
    with max within 1..127, [DEFAULT_PARAMS] has exactly the keys of
    [MIDI_CC_MAP] and each default lies within the range of its control,
    and every entry of [PATCH_PARAM_MAP] names a control of [MIDI_CC_MAP]
    at a byte offset below 55, the offsets increasing and the names
    distinct. *)
Theorem parameter_tables_agree :
  (forall key def, (key, def) ∈ MIDI_CC_MAP ->
     0 <= CCDef.cc def <= 127
     /\ CCDef.min def = 0 /\ 1 <= CCDef.max def <= 127
     /\ exists v, DEFAULT_PARAMS !! key = Some (JNum v)
                  /\ CCDef.min def <= v <= CCDef.max def)
  /\ dom DEFAULT_PARAMS = list_to_set MIDI_CC_MAP.*1
  /\ (forall off key, (off, key) ∈ PATCH_PARAM_MAP ->
        (off < 55)%nat /\ exists def, (key, def) ∈ MIDI_CC_MAP)
  /\ StronglySorted lt PATCH_PARAM_MAP.*1
  /\ NoDup PATCH_PARAM_MAP.*2.
Proof.
  split; [| split; [| split; [| split]]].
  - intros key def Hin.
    pose proof (proj1 (Forall_forall _ _) MIDI_CC_MAP_cc_range _ Hin) as Hcc.
    pose proof (proj1 (Forall_forall _ _) MIDI_CC_MAP_ranges _ Hin) as Hr.
    pose proof (proj1 (Forall_forall _ _) DEFAULT_PARAMS_within_ranges _ Hin)
      as Hd.
    cbn in Hcc, Hr, Hd. tauto.
  - exact DEFAULT_PARAMS_dom.
  - intros off key Hin. split; [now apply (PATCH_PARAM_MAP_offset off key) |].
    destruct (proj1 (Forall_forall _ _) PATCH_PARAM_MAP_described _ Hin)
      as [def Hdef].
    exists def. now apply objGet_Some_elem_of.
  - exact PATCH_PARAM_MAP_offsets_increase.
  - apply (bool_decide_unpack _). vm_compute. exact I.
Qed.

Lemma parameter_tables_agree_witness :
  0 <= 12 <= 127 /\ DEFAULT_PARAMS !! "ampModel"%string = Some (JNum 0)
  /\ (9 < 55)%nat.
Proof.
  destruct parameter_tables_agree as (Hcc & _ & Hpatch & _ & _).
  split; [| split].
  - apply (Hcc "ampModel"%string (CCDef.mk 12 "Amp Model" 0 31)).
    apply (bool_decide_unpack _). vm_compute. exact I.
  - reflexivity.
  - apply (Hpatch 9%nat "drive"%string).
    apply (bool_decide_unpack _). vm_compute. exact I.
Defined.

Section ModelTables.

Lemma model_names_not_empty :
  Forall (fun name : string => name <> ""%string)
         (AMP_MODELS ++ CAB_MODELS ++ EFFECT_TYPES).
Proof. apply (bool_decide_unpack _). vm_compute. exact I. Qed.

Lemma model_table_lookup (table : list string) (v : Z) :
  Forall (fun name : string => name <> ""%string) table ->
  0 <= v < Z.of_nat (length table) ->
  exists name, table !! Z.to_nat v = Some name /\ name <> ""%string.
Proof.
  intros Hall Hv.
  destruct (lookup_lt_is_Some_2 table (Z.to_nat v)) as [name Hname]; [lia |].
  exists name. split; [exact Hname |].
  exact (proj1 (Forall_lookup _ _) Hall _ _ Hname).
Qed.

End ModelTables.

(** X23. The tables of model names cover exactly the ranges of their
    controls: for the amp model, the cabinet model and the effect type, the
    table has max + 1 names, every value within 0..max selects a name that
    is not empty, and a Control Change message for the control stores its
    value as it is, so that a value above max is stored and selects no
    name. *)
Theorem model_tables_cover_ranges
    (key : string) (table : list string) (def : CCDef.t) :
  (key, table) ∈ [("ampModel"%string, AMP_MODELS);
                  ("cabModel"%string, CAB_MODELS);
                  ("effect"%string, EFFECT_TYPES)] ->
  (key, def) ∈ MIDI_CC_MAP ->
  Z.of_nat (length table) = CCDef.max def + 1
  /\ NoDup table
  /\ (forall v, 0 <= v <= CCDef.max def ->
        exists name, table !! Z.to_nat v = Some name /\ name <> ""%string)
  /\ (forall status val prev,
        js_and status 0xf0 = 0xb0 ->
        handleMidiMessage [status; CCDef.cc def; val] prev !! key
        = Some (JNum val)
        /\ (CCDef.max def < val -> table !! Z.to_nat val = None)).
Proof.
  intros Htable Hdef.
  pose proof (objGet_elem_of key def MIDI_CC_MAP MIDI_CC_MAP_keys_NoDup Hdef)
    as Hget.
  pose proof model_names_not_empty as Hnames.
  apply Forall_app in Hnames as [Hamp Hnames].
  apply Forall_app in Hnames as [Hcab Heff].
  assert (Hcases :
    Z.of_nat (length table) = CCDef.max def + 1
    /\ NoDup table
    /\ Forall (fun name : string => name <> ""%string) table
    /\ CCDef.max def <> 1).
  { repeat (apply elem_of_cons in Htable as [Htable | Htable]);
      [| | | now apply elem_of_nil in Htable];
      injection Htable as -> ->; vm_compute in Hget; injection Hget as <-;
      (split; [reflexivity |]); (split; [| split; [assumption | discriminate]]);
      apply (bool_decide_unpack _); vm_compute; exact I. }
  destruct Hcases as (Hlen & Hnd & Hall & Hmax).
  split; [exact Hlen |]. split; [exact Hnd |]. split.
  - intros v Hv. apply model_table_lookup; [exact Hall | lia].
  - intros status val prev Hst. split.
    + rewrite (handleMidiMessage_descriptor status val key def prev Hst Hdef).
      rewrite lookup_insert_eq. unfold adjustedVal.
      now rewrite bool_decide_eq_false_2.
    + intros Hval. apply lookup_ge_None_2. lia.
Qed.

Lemma model_tables_cover_ranges_witness :
  AMP_MODELS !! Z.to_nat 31 = Some "Line 6 INSANE"%string
  /\ handleMidiMessage [0xb0; 12; 127] DEFAULT_PARAMS !! "ampModel"%string
     = Some (JNum 127)
  /\ AMP_MODELS !! Z.to_nat 127 = None.
Proof.
  destruct (model_tables_cover_ranges "ampModel" AMP_MODELS
              (CCDef.mk 12 "Amp Model" 0 31)) as (_ & _ & _ & Hcc).
  - apply (bool_decide_unpack _). vm_compute. exact I.
  - apply (bool_decide_unpack _). vm_compute. exact I.
  - split; [reflexivity |].
    destruct (Hcc 0xb0 127 DEFAULT_PARAMS) as [Hstored Hnone]; [reflexivity |].
    split; [exact Hstored |]. apply Hnone. cbn. lia.
Defined.
